(** * Kokkai RAG pipeline: query planning, structured filtering,
    similarity search, aggregation and answer synthesis.

    Shallow embedding of [src/backend/scripts/persistent-rag-cli.ts]
    (class [PersistentKokkaiRAGCLI]) and of [createQueryPlan] in
    [src/unnamed/part_000], which normalises the planner response in the
    same way as [planKokkaiQuery].

    Collaborators (PostgreSQL/pgvector, the embedding model, the LLM) are
    modelled as functions in a [Store] / [Llm] record; every call that can
    throw returns a [result]. *)

From Stdlib Require Import String Ascii List Bool ZArith QArith Lia.
From Stdlib Require Import Sorting.Permutation Sorting.Sorted.
Import ListNotations.
Set Warnings "-register-all".
Open Scope string_scope.

(** ** Errors: a thrown JavaScript [Error] is [Err message]. *)

Inductive result (A : Type) : Type :=
| Ok (a : A)
| Err (e : string).
Arguments Ok {A} a.
Arguments Err {A} e.

Definition bind {A B} (m : result A) (k : A -> result B) : result B :=
  match m with
  | Ok a => k a
  | Err e => Err e
  end.

Notation "x <- m ;; k" := (bind m (fun x => k))
  (at level 61, m at next level, right associativity).

Definition fmap {A B} (f : A -> B) (m : result A) : result B :=
  match m with
  | Ok a => Ok (f a)
  | Err e => Err e
  end.

(** ** String helpers used by the template literals *)

Definition nl : string := String (ascii_of_nat 10) EmptyString.

(** [Array.prototype.join] *)
Fixpoint join (sep : string) (xs : list string) : string :=
  match xs with
  | [] => ""
  | [x] => x
  | x :: rest => x ++ sep ++ join sep rest
  end.

(** Decimal rendering of a natural number, as [`${n}`] does. *)
Fixpoint nat_to_string_aux (fuel n : nat) (acc : string) : string :=
  match fuel with
  | O => acc
  | S f =>
      let acc' := String (ascii_of_nat (48 + n mod 10)) acc in
      if Nat.ltb n 10 then acc' else nat_to_string_aux f (n / 10) acc'
  end.

Definition nat_to_string (n : nat) : string := nat_to_string_aux (S n) n "".

(** [Array.prototype.includes] on strings *)
Definition includes (xs : list string) (x : string) : bool :=
  existsb (String.eqb x) xs.

(** ** Data model (interfaces [SpeechResult], [KokkaiEntities],
    [QueryPlan], [DatabaseRow]) *)

Record SpeechResult := mkSpeechResult {
  speechId : string;
  speaker : string;
  party : string;
  date : string;
  meeting : string;
  content : string;
  url : string;
  score : Q;
}.

Record DateRange := mkDateRange {
  start : string;
  end_ : string;
}.

(** Every field of [KokkaiEntities] is optional ([?:]). *)
Record KokkaiEntities := mkKokkaiEntities {
  speakers : option (list string);
  parties : option (list string);
  dateRange : option DateRange;
  meetings : option (list string);
  topics : option (list string);
  positions : option (list string);
}.

Record QueryPlan := mkQueryPlan {
  originalQuestion : string;
  subqueries : list string;
  entities : KokkaiEntities;
  enabledStrategies : list string;
  confidence : Q;
  estimatedComplexity : Q;
}.

(** [similarity_score] arrives as a string; [parseFloat] of it is kept
    here as [Some q], or [None] when [parseFloat] yields [NaN]. *)
Record DatabaseRow := mkDatabaseRow {
  speech_id : string;
  row_speaker : option string;
  speaker_group : option string;
  row_date : option string;
  meeting_name : option string;
  speech_text : option string;
  speech_url : option string;
  similarity_score : option Q;
}.

(** Rows of the similarity query: the three SQL texts of lines 294-331
    differ only in the id restriction ([speech_id = ANY($2::text[])]) and
    the distance ceiling ([embedding <=> $1 < c]); the row limit is [topK]. *)
Record SimilarityQuery := mkSimilarityQuery {
  sim_embedding : list Q;
  sim_candidates : option (list string);
  sim_ceiling : Q;
  sim_limit : Z;
}.

(** The collaborators: [this.dbPool], [Settings.embedModel], and the two
    kinds of store query. [query_ids] is [dbPool.query(text, params)]
    followed by [rows.map(row => row.speech_id)]. *)
Record Store := mkStore {
  dbPool_ready : bool;
  embedModel_ready : bool;
  getTextEmbedding : string -> result (list Q);
  query_ids : string -> list string -> result (list string);
  query_similar : SimilarityQuery -> result (list DatabaseRow);
}.

(** ** [applyStructuredFilter] (lines 196-255) *)

(** [xs.map((_, i) => { paramIndex = params.length + 1; params.push(`%x%`);
    return `(column ILIKE $paramIndex)` })]; returns the conditions and the
    extended [params]. *)
Fixpoint like_conditions (column : string) (xs : list string)
    (params : list string) : list string * list string :=
  match xs with
  | [] => ([], params)
  | x :: rest =>
      let paramIndex := (length params + 1)%nat in
      let cond := "(" ++ column ++ " ILIKE $" ++ nat_to_string paramIndex ++ ")" in
      let '(conds, params') :=
        like_conditions column rest (app params ["%" ++ x ++ "%"]) in
      (cond :: conds, params')
  end.

(** One [if] block of lines 207-224: skipped when the list is absent or
    empty, otherwise one parenthesised disjunction is pushed. *)
Definition push_like (column : string) (xs : option (list string))
    (acc : list string * list string) : list string * list string :=
  let '(conditions, params) := acc in
  match xs with
  | Some ((_ :: _) as l) =>
      let '(cs, params') := like_conditions column l params in
      (app conditions ["(" ++ join " OR " cs ++ ")"], params')
  | _ => (conditions, params)
  end.

(** Lines 227-232. *)
Definition push_date (r : option DateRange)
    (acc : list string * list string) : list string * list string :=
  let '(conditions, params) := acc in
  match r with
  | Some d =>
      let startParam := (length params + 1)%nat in
      let endParam := (length params + 2)%nat in
      (app conditions ["(e.date >= $" ++ nat_to_string startParam ++
                      " AND e.date <= $" ++ nat_to_string endParam ++ ")"],
       app params [start d; end_ d])
  | None => (conditions, params)
  end.

(** The [conditions] and [params] arrays built by lines 203-232. *)
Definition filter_conditions (entities : KokkaiEntities)
    : list string * list string :=
  push_date (dateRange entities)
    (push_like "e.speaker_group" (parties entities)
      (push_like "e.speaker" (speakers entities) ([], []))).

(** The SQL text of lines 238-243 (whitespace normalised). *)
Definition filter_sql (conditions : list string) : string :=
  "SELECT DISTINCT e.speech_id FROM kokkai_speech_embeddings e WHERE " ++
  join " AND " conditions ++ " LIMIT 1000".

Definition applyStructuredFilter (st : Store) (entities : KokkaiEntities)
    : result (list string) :=
  if negb (dbPool_ready st) then Err "Database not initialized" else
  let '(conditions, params) := filter_conditions entities in
  match conditions with
  | [] => Ok []
  | _ =>
      match query_ids st (filter_sql conditions) params with
      | Ok ids => Ok ids
      | Err _ => Ok []
      end
  end.

(** ** Similarity search of one sub-query (lines 273-351) *)

(** Lines 276-279. *)
Definition expandQuery (subquery : string) (entities : KokkaiEntities) : string :=
  match topics entities with
  | Some ((_ :: _) as ts) => subquery ++ " " ++ join " " ts
  | _ => subquery
  end.

(** [x || d] on a nullable string: [null] and [""] are falsy. *)
Definition or_str (x : option string) (d : string) : string :=
  match x with
  | Some s => if String.eqb s "" then d else s
  | None => d
  end.

(** [parseFloat(s) || 0.0]: [NaN] and [0] give [0.0]. *)
Definition or_score (x : option Q) : Q :=
  match x with
  | Some q => if Qeq_bool q 0 then 0 else q
  | None => 0
  end.

(** Lines 338-349. *)
Definition row_to_result (row : DatabaseRow) : SpeechResult :=
  {| speechId := speech_id row;
     speaker := or_str (row_speaker row) "未知の議員";
     party := or_str (speaker_group row) "?";
     date := or_str (row_date row) "2024-01-01";
     meeting := or_str (meeting_name row) "?";
     content := or_str (speech_text row) "";
     url := or_str (speech_url row) "";
     score := or_score (similarity_score row) |}.

(** Lines 288-333: the query chosen for one sub-query. *)
Definition select_query (st : Store) (plan : QueryPlan) (emb : list Q)
    (topK : Z) : result SimilarityQuery :=
  if includes (enabledStrategies plan) "structured" then
    candidateIds <- applyStructuredFilter st (entities plan) ;;
    if Nat.ltb 0 (length candidateIds)
    then Ok (mkSimilarityQuery emb (Some candidateIds) (8 # 10) topK)
    else Ok (mkSimilarityQuery emb None (6 # 10) topK)
  else Ok (mkSimilarityQuery emb None (7 # 10) topK).

(** One iteration of the [for] loop, lines 273-349. *)
Definition subquery_step (st : Store) (plan : QueryPlan) (topK : Z)
    (subquery : string) : result (list SpeechResult) :=
  queryEmbedding <- getTextEmbedding st (expandQuery subquery (entities plan)) ;;
  q <- select_query st plan queryEmbedding topK ;;
  rows <- query_similar st q ;;
  Ok (map row_to_result rows).

(** ** Aggregation (lines 354-359) *)

(** A JavaScript [Map] as an insertion-ordered association list: [set] on
    an existing key replaces the value in place. *)
Definition ResultMap := list (string * SpeechResult).

Fixpoint map_set (m : ResultMap) (k : string) (v : SpeechResult) : ResultMap :=
  match m with
  | [] => [(k, v)]
  | (k', v') :: rest =>
      if String.eqb k k' then (k, v) :: rest else (k', v') :: map_set rest k v
  end.

(** [new Map(allResults.map(r => [r.speechId, r]))] *)
Definition new_map (rs : list SpeechResult) : ResultMap :=
  fold_left (fun m r => map_set m (speechId r) r) rs [].

(** [Map.prototype.values] *)
Definition map_values (m : ResultMap) : list SpeechResult := map snd m.

(** [.sort((a, b) => b.score - a.score)]: a stable sort (ES2019) with this
    comparator keeps [a] before [b] exactly when [b.score <= a.score]. *)
Fixpoint insert_desc (x : SpeechResult) (l : list SpeechResult) : list SpeechResult :=
  match l with
  | [] => [x]
  | y :: rest => if Qle_bool (score y) (score x) then x :: y :: rest
                 else y :: insert_desc x rest
  end.

Fixpoint sort_desc (l : list SpeechResult) : list SpeechResult :=
  match l with
  | [] => []
  | x :: rest => insert_desc x (sort_desc rest)
  end.

(** [Array.prototype.slice(0, end)] *)
Definition slice0 {A} (l : list A) (end_idx : Z) : list A :=
  let len := Z.of_nat (length l) in
  let e := if Z.ltb end_idx 0 then Z.max (len + end_idx)%Z 0
           else Z.min end_idx len in
  firstn (Z.to_nat e) l.

Definition aggregate (allResults : list SpeechResult) (topK : Z)
    : list SpeechResult :=
  slice0 (sort_desc (map_values (new_map allResults))) topK.

(** ** [searchWithPlan] (lines 258-369) *)

(** The loop of lines 272-352: [allResults = allResults.concat(...)]; a
    thrown error leaves the loop. *)
Fixpoint run_subqueries (st : Store) (plan : QueryPlan) (topK : Z)
    (sqs : list string) (allResults : list SpeechResult)
    : result (list SpeechResult) :=
  match sqs with
  | [] => Ok allResults
  | sq :: rest =>
      subqueryResults <- subquery_step st plan topK sq ;;
      run_subqueries st plan topK rest (app allResults subqueryResults)
  end.

(** The outer [try]/[catch] logs and rethrows, so an error is returned
    unchanged. *)
Definition searchWithPlan (st : Store) (plan : QueryPlan) (topK : Z)
    : result (list SpeechResult) :=
  if negb (dbPool_ready st && embedModel_ready st)
  then Err "Database or embedding model not initialized" else
  allResults <- run_subqueries st plan topK (subqueries plan) [] ;;
  Ok (aggregate allResults topK).

(** ** Query planning: normalising the parsed planner response
    ([planKokkaiQuery] lines 165-179; [createQueryPlan] in part_000,
    lines 54-68, is the same code). *)

(** A value produced by [JSON.parse]. *)
Inductive json : Type :=
| JNull
| JBool (b : bool)
| JNum (q : Q)
| JStr (s : string)
| JArr (l : list json)
| JObj (fields : list (string * json)).

(** A JavaScript value read from the parsed object: [undefined] or JSON. *)
Inductive jsval : Type :=
| Undefined
| JV (v : json).

(** JavaScript truthiness ([NaN] cannot come out of [JSON.parse]). *)
Definition truthy (v : jsval) : bool :=
  match v with
  | Undefined | JV JNull => false
  | JV (JBool b) => b
  | JV (JNum q) => negb (Qeq_bool q 0)
  | JV (JStr s) => negb (String.eqb s "")
  | JV (JArr _) | JV (JObj _) => true
  end.

(** [a || d] *)
Definition js_or (a d : jsval) : jsval := if truthy a then a else d.

(** Own property of a parsed object; [JSON.parse] keeps the last of
    duplicate keys. *)
Fixpoint obj_lookup (fields : list (string * json)) (k : string) : jsval :=
  match fields with
  | [] => Undefined
  | (k', v) :: rest =>
      match obj_lookup rest k with
      | Undefined => if String.eqb k k' then JV v else Undefined
      | found => found
      end
  end.

(** Property read [o.k] on a value that is not [null]/[undefined]. *)
Definition field (v : json) (k : string) : jsval :=
  match v with
  | JObj fields => obj_lookup fields k
  | _ => Undefined
  end.

(** [o.k]: throws a [TypeError] on [null] and [undefined]. *)
Definition get (o : jsval) (k : string) : result jsval :=
  match o with
  | Undefined | JV JNull => Err "TypeError: Cannot read properties of null"
  | JV v => Ok (field v k)
  end.

(** [o?.k] *)
Definition get_opt (o : jsval) (k : string) : jsval :=
  match o with
  | Undefined | JV JNull => Undefined
  | JV v => field v k
  end.

(** The [entities] object of the plan, as values. *)
Record EntitiesValue := mkEntitiesValue {
  ev_speakers : jsval;
  ev_parties : jsval;
  ev_topics : jsval;
  ev_meetings : jsval;
  ev_positions : jsval;
  ev_dateRange : jsval;
}.

(** The object built at lines 165-179. TypeScript's annotation is erased at
    run time, so each field holds whatever value the expression produced. *)
Record PlanValue := mkPlanValue {
  pv_originalQuestion : string;
  pv_subqueries : jsval;
  pv_entities : EntitiesValue;
  pv_enabledStrategies : jsval;
  pv_confidence : jsval;
  pv_estimatedComplexity : jsval;
}.

Definition plan_from_json (question : string) (planData : json)
    : result PlanValue :=
  subq <- get (JV planData) "subqueries" ;;
  ents <- get (JV planData) "entities" ;;
  strategies <- get (JV planData) "enabledStrategies" ;;
  conf <- get (JV planData) "confidence" ;;
  complexity <- get (JV planData) "estimatedComplexity" ;;
  Ok {| pv_originalQuestion := question;
        pv_subqueries := js_or subq (JV (JArr [JStr question]));
        pv_entities :=
          {| ev_speakers := js_or (get_opt ents "speakers") (JV (JArr []));
             ev_parties := js_or (get_opt ents "parties") (JV (JArr []));
             ev_topics := js_or (get_opt ents "topics") (JV (JArr []));
             ev_meetings := js_or (get_opt ents "meetings") (JV (JArr []));
             ev_positions := js_or (get_opt ents "positions") (JV (JArr []));
             ev_dateRange := get_opt ents "dateRange" |};
        pv_enabledStrategies := js_or strategies (JV (JArr [JStr "vector"]));
        pv_confidence := js_or conf (JV (JNum (1 # 2)));
        pv_estimatedComplexity := js_or complexity (JV (JNum 2)) |}.

(** ** [generateAnswer] (lines 378-440) *)

(** [Settings.llm]; [complete] may reject. *)
Record Llm := mkLlm {
  complete : string -> result string;
}.

(** [xs.map((x, index) => f(index, x))] *)
Fixpoint mapi_from {A B} (f : nat -> A -> B) (i : nat) (l : list A) : list B :=
  match l with
  | [] => []
  | x :: rest => f i x :: mapi_from f (S i) rest
  end.

(** JavaScript strings are held here in their WTF-8 encoding (UTF-8, a
    lone surrogate being its own three-byte sequence). JavaScript counts a
    string in UTF-16 code units: one for each sequence of one to three
    bytes, two for a four-byte sequence. *)

(** The high surrogate of the four-byte sequence starting with [c0 c1 c2],
    as a three-byte sequence. *)
Definition high_surrogate (c0 c1 c2 : ascii) : string :=
  let h := (55232 + N.modulo (N_of_ascii c0) 8 * 256 + N.modulo (N_of_ascii c1) 64 * 4
            + N.div (N.modulo (N_of_ascii c2) 64) 16)%N in
  String (ascii_of_N (224 + N.div h 4096)%N)
    (String (ascii_of_N (128 + N.modulo (N.div h 64) 64)%N)
       (String (ascii_of_N (128 + N.modulo h 64)%N) EmptyString)).

(** [s.substring(0, n)]: the first [n] UTF-16 code units; cutting a
    surrogate pair keeps its high surrogate. *)
Fixpoint js_substring0 (n : nat) (s : string) {struct s} : string :=
  match n with
  | O => EmptyString
  | S n' =>
      match s with
      | EmptyString => EmptyString
      | String c0 s0 =>
          let b0 := nat_of_ascii c0 in
          if Nat.ltb b0 192 then String c0 (js_substring0 n' s0)
          else if Nat.ltb b0 224 then
            match s0 with
            | String c1 s1 => String c0 (String c1 (js_substring0 n' s1))
            | EmptyString => s
            end
          else if Nat.ltb b0 240 then
            match s0 with
            | String c1 (String c2 s2) =>
                String c0 (String c1 (String c2 (js_substring0 n' s2)))
            | _ => s
            end
          else
            match s0 with
            | String c1 (String c2 (String c3 s3)) =>
                match n' with
                | O => high_surrogate c0 c1 c2
                | S n'' =>
                    String c0 (String c1 (String c2 (String c3 (js_substring0 n'' s3))))
                end
            | _ => s
            end
      end
  end.

(** [s.length]: the number of UTF-16 code units. *)
Fixpoint utf16_length (s : string) : nat :=
  match s with
  | EmptyString => O
  | String c0 s0 =>
      let b0 := nat_of_ascii c0 in
      if Nat.ltb b0 192 then S (utf16_length s0)
      else if Nat.ltb b0 224 then
        match s0 with String _ s1 => S (utf16_length s1) | EmptyString => 1%nat end
      else if Nat.ltb b0 240 then
        match s0 with String _ (String _ s2) => S (utf16_length s2) | _ => 1%nat end
      else
        match s0 with
        | String _ (String _ (String _ s3)) => S (S (utf16_length s3))
        | _ => 1%nat
        end
  end.

Section Answer.

(** [Number.prototype.toFixed(3)], a floating-point formatter left
    abstract. *)
Variable toFixed3 : Q -> string.

(** Lines 389-397. *)
Definition context_entry (index : nat) (result : SpeechResult) : string :=
  "【発言 " ++ nat_to_string (index + 1) ++ "】" ++ nl ++
  "議員: " ++ speaker result ++ " (" ++ party result ++ ")" ++ nl ++
  "日付: " ++ date result ++ nl ++
  "会議: " ++ meeting result ++ nl ++
  "内容: " ++ content result ++ nl ++
  "出典: " ++ url result ++ nl ++
  "関連度: " ++ toFixed3 (score result) ++ nl.

(** Lines 401-419. *)
Definition answer_prompt (query : string) (results : list SpeechResult) : string :=
  let context := join nl (mapi_from context_entry 0 results) in
  "以下の国会議事録から、質問に対して正確で詳細な回答を作成してください。" ++ nl ++ nl ++
  "質問: " ++ query ++ nl ++ nl ++
  "国会議事録:" ++ nl ++ context ++ nl ++ nl ++
  "回答要件:" ++ nl ++
  "1. 発言者名と所属政党を明記する" ++ nl ++
  "2. 発言の日付と会議名を含める" ++ nl ++
  "3. 具体的な内容を引用する" ++ nl ++
  "4. 出典URLを提示する" ++ nl ++
  "5. 複数の発言がある場合は比較・整理する際も、各要点に対応する出典URLを明記する" ++ nl ++
  "6. まとめ部分でも、根拠となった発言の出典URLを含める" ++ nl ++
  "7. 事実に基づいて回答し、推測は避ける" ++ nl ++ nl ++
  "重要: 議論の比較・整理やまとめの各項目にも、必ず根拠となった発言の出典URL（例: https://kokkai.ndl.go.jp/txt/...）を併記してください。" ++ nl ++ nl ++
  "回答:".

(** Lines 430-436. *)
Definition fallback_entry (index : nat) (result : SpeechResult) : string :=
  nat_to_string (index + 1) ++ ". " ++ speaker result ++ " (" ++ party result ++ ")" ++ nl ++
  "   日付: " ++ date result ++ nl ++
  "   会議: " ++ meeting result ++ nl ++
  "   内容: " ++ js_substring0 300 (content result) ++ "..." ++ nl ++
  "   出典: " ++ url result ++ nl ++
  "   関連度: " ++ toFixed3 (score result).

(** Lines 426-438. *)
Definition fallback_answer (results : list SpeechResult) : string :=
  "検索結果に基づく情報:" ++ nl ++ nl ++
  join (nl ++ nl) (mapi_from fallback_entry 0 results).

Definition generateAnswer (llm : option Llm) (query : string)
    (results : list SpeechResult) : result string :=
  match llm with
  | None => Err "LLM not initialized"
  | Some l =>
      match complete l (answer_prompt query results) with
      | Ok text => Ok text
      | Err _ => Ok (fallback_answer results)
      end
  end.

End Answer.

(** ** [planKokkaiQuery] (lines 107-193) and [createQueryPlan]
    (part_000, lines 18-83) *)

(** Turns every apostrophe of a template into a double quote; the planner
    template below is written with apostrophes in place of its quotes. *)
Fixpoint quotes (s : string) : string :=
  match s with
  | EmptyString => EmptyString
  | String c rest =>
      String (if Ascii.eqb c (ascii_of_nat 39) then ascii_of_nat 34 else c)
        (quotes rest)
  end.

(** The planner prompt of lines 114-148 around [${question}]. *)
Definition planner_prompt_head : string := quotes "国会議事録検索システムのプランナーとして、以下の質問を分析してください。

質問: '".

Definition planner_prompt_tail : string := quotes "'

以下のJSON形式で出力してください（```json等は不要）：
{
  'subqueries': [
    '質問を効果的に検索するための分解されたサブクエリ1',
    'サブクエリ2'
  ],
  'entities': {
    'speakers': ['議員名があれば具体的に。総理→岸田文雄等'],
    'parties': ['政党名があれば'],
    'topics': ['主要キーワード', '関連語・同義語'],
    'meetings': ['特定の委員会や会議があれば'],
    'positions': ['役職があれば具体的に'],
    'dateRange': {'start': 'YYYY-MM-DD', 'end': 'YYYY-MM-DD'}
  },
  'enabledStrategies': ['vector', 'structured'],
  'confidence': 0.8,
  'estimatedComplexity': 2
}

ルール:
1. subqueriesは質問を効果的に分解したもの（1-3個）
2. entitiesは国会議事録検索に有効な情報のみ抽出
3. enabledStrategiesは['vector', 'structured', 'statistical']から選択
4. confidenceは解析の信頼度(0-1)
5. estimatedComplexityは処理の複雑さ(1-5)

例：
質問「岸田総理の防衛費についての発言」
→ speakers: ['岸田文雄', '内閣総理大臣']
→ topics: ['防衛費', '防衛予算', '防衛関係費', '国防費']
→ subqueries: ['岸田総理 防衛費', '内閣総理大臣 防衛予算']".

Definition planner_prompt (question : string) : string :=
  planner_prompt_head ++ question ++ planner_prompt_tail.

(** [ToString] of a parsed value throws exactly for an object with an own
    [toString] (never callable in JSON, and [valueOf] then returns the
    object itself) and for an array holding such a value, through
    [Array.prototype.join]. *)
Fixpoint to_string_throws (v : json) : bool :=
  match v with
  | JArr l =>
      (fix go (l : list json) : bool :=
         match l with
         | [] => false
         | x :: rest => to_string_throws x || go rest
         end) l
  | JObj fields => existsb (fun kv => String.eqb (fst kv) "toString") fields
  | _ => false
  end.

(** A value interpolated in a template literal. *)
Definition to_template (v : jsval) : result unit :=
  match v with
  | JV j =>
      if to_string_throws j
      then Err "TypeError: Cannot convert object to primitive value" else Ok tt
  | Undefined => Ok tt
  end.

(** [v.length] *)
Definition js_length (v : jsval) : result jsval :=
  match v with
  | Undefined | JV JNull => Err "TypeError: Cannot read properties of null"
  | JV (JArr l) => Ok (JV (JNum (inject_Z (Z.of_nat (length l)))))
  | JV (JStr s) => Ok (JV (JNum (inject_Z (Z.of_nat (utf16_length s)))))
  | JV (JObj fields) => Ok (obj_lookup fields "length")
  | JV (JBool _) | JV (JNum _) => Ok Undefined
  end.

(** [v?.length] *)
Definition opt_length (v : jsval) : jsval :=
  match v with
  | Undefined | JV JNull => Undefined
  | _ => match js_length v with Ok n => n | Err _ => Undefined end
  end.

(** The [console.log] calls after the plan is built (lines 181-186, and
    70-76 of part_000, where [JSON.stringify] of parsed values cannot
    throw): the template literals convert [subqueries.length],
    [speakers?.length || 0] and [topics?.length || 0] to strings,
    [plan.enabledStrategies.join] needs an array whose elements convert,
    and [plan.confidence.toFixed] a number. *)
Definition plan_log_check (plan : PlanValue) : result unit :=
  n <- js_length (pv_subqueries plan) ;;
  _ <- to_template n ;;
  _ <- to_template (js_or (opt_length (ev_speakers (pv_entities plan))) (JV (JNum 0))) ;;
  _ <- to_template (js_or (opt_length (ev_topics (pv_entities plan))) (JV (JNum 0))) ;;
  _ <- match pv_enabledStrategies plan with
       | JV (JArr xs) => to_template (JV (JArr xs))
       | _ => Err "TypeError: plan.enabledStrategies.join is not a function"
       end ;;
  match pv_confidence plan with
  | JV (JNum _) => Ok tt
  | _ => Err "TypeError: plan.confidence.toFixed is not a function"
  end.

(** The chat client of part_000: [client.chat.completions.create] with the
    given messages returns, per choice, [message.content] ([None] when it
    is absent or null). Model name, [max_tokens] and [temperature] are
    constant options of the request. *)
Record ChatClient := mkChatClient {
  chat_create : list (string * string) -> result (list (option string));
}.

Section Planner.

(** [String.prototype.trim] and [JSON.parse] (which throws on invalid
    text). *)
Variable trim : string -> string.
Variable json_parse : string -> result json.

(** Lines 155-162 (part_000 lines 42-51). *)
Definition parse_plan_text (planText : string) : result json :=
  match json_parse planText with
  | Ok d => Ok d
  | Err m => Err ("Failed to parse LLM response as JSON: " ++ m ++ nl ++
                  "Response: " ++ planText)
  end.

(** Parsing, normalising and logging, shared by both planners. *)
Definition plan_of_text (question planText : string) : result PlanValue :=
  planData <- parse_plan_text planText ;;
  plan <- plan_from_json question planData ;;
  _ <- plan_log_check plan ;;
  Ok plan.

Definition planKokkaiQuery (llm : option Llm) (question : string)
    : result PlanValue :=
  match llm with
  | None => Err "LLM not initialized"
  | Some l =>
      response <- complete l (planner_prompt question) ;;
      plan_of_text question (trim response)
  end.

(** The prompts of [../utils/prompt.ts], which is not part of this source
    set. *)
Variable getQueryPlanSystemPrompt : string.
Variable createQueryPlanPrompt : string -> string.

(** [getOpenAIClient()] may throw, hence [result ChatClient]. *)
Definition createQueryPlan (client : result ChatClient) (userQuestion : string)
    : result PlanValue :=
  let userPrompt := createQueryPlanPrompt userQuestion in
  c <- client ;;
  choices <- chat_create c [("system", getQueryPlanSystemPrompt); ("user", userPrompt)] ;;
  let planText := match choices with
                  | ch :: _ => option_map trim ch
                  | [] => None
                  end in
  match planText with
  | None => Err "No text in completion response"
  | Some t =>
      if String.eqb t "" then Err "No text in completion response"
      else plan_of_text userQuestion t
  end.

End Planner.

(** ** Auxiliary notions used in the statements *)

(** [Map.prototype.get] *)
Fixpoint map_get (m : ResultMap) (k : string) : option SpeechResult :=
  match m with
  | [] => None
  | (k', v) :: rest => if String.eqb k k' then Some v else map_get rest k
  end.

(** The last hit with the given id in a result sequence. *)
Definition last_hit (id : string) (rs : list SpeechResult) : option SpeechResult :=
  fold_left (fun acc r => if String.eqb (speechId r) id then Some r else acc) rs None.

(** The entries of a sequence carrying a given speech id. *)
Definition hits_of (id : string) (rs : list SpeechResult) : list SpeechResult :=
  filter (fun r => String.eqb (speechId r) id) rs.

(** Descending order of scores, as the comparator states it. *)
Definition score_ge (a b : SpeechResult) : Prop := (score b <= score a)%Q.

(** The keys of a [Map] built from results are their speech ids. *)
Definition wf_map (m : ResultMap) : Prop :=
  Forall (fun kv => speechId (snd kv) = fst kv) m /\ NoDup (map fst m).

(** Absent and empty entity lists are alike for the filter. *)
Definition opt_list (o : option (list string)) : list string :=
  match o with Some l => l | None => [] end.

(** The [%x%] pattern bound to one ILIKE placeholder. *)
Definition like_pattern (x : string) : string := "%" ++ x ++ "%".

(** The ILIKE condition using placeholder [$n]. *)
Definition like_condition (column : string) (n : nat) : string :=
  "(" ++ column ++ " ILIKE $" ++ nat_to_string n ++ ")".

Definition date_params (r : option DateRange) : list string :=
  match r with Some d => [start d; end_ d] | None => [] end.

(** One for a non-empty list, zero for the empty one. *)
Definition nonempty {A} (l : list A) : nat := match l with [] => 0 | _ => 1 end.

(** The plan built from a response that is not an object: every field
    takes its default. *)
Definition default_plan (question : string) : PlanValue :=
  {| pv_originalQuestion := question;
     pv_subqueries := JV (JArr [JStr question]);
     pv_entities := {| ev_speakers := JV (JArr []); ev_parties := JV (JArr []);
                       ev_topics := JV (JArr []); ev_meetings := JV (JArr []);
                       ev_positions := JV (JArr []); ev_dateRange := Undefined |};
     pv_enabledStrategies := JV (JArr [JStr "vector"]);
     pv_confidence := JV (JNum (1 # 2));
     pv_estimatedComplexity := JV (JNum 2) |}.

(** Absent, falsy, or an array of strings: a value that the logging after
    plan construction prints without error. *)
Definition plain_list (v : jsval) : Prop :=
  truthy v = false \/
  exists xs, v = JV (JArr xs) /\ Forall (fun x => exists t, x = JStr t) xs.

(** The store answers a similarity query with a negative [LIMIT] by an
    error, as PostgreSQL does ("LIMIT must not be negative"). *)
Definition rejects_negative_limit (st : Store) : Prop :=
  forall q, (sim_limit q < 0)%Z -> exists e, query_similar st q = Err e.

(** [a] occurs before [b] in [l]. *)
Definition precedes {A} (l : list A) (a b : A) : Prop :=
  exists l1 l2 l3, l = app l1 (a :: app l2 (b :: l3)).

(** The ids of a sequence in the order of their first occurrence, skipping
    those in [seen]. *)
Fixpoint first_occ (seen : list string) (l : list string) : list string :=
  match l with
  | [] => []
  | x :: rest =>
      if existsb (String.eqb x) seen then first_occ seen rest
      else x :: first_occ (x :: seen) rest
  end.

(** ** Concrete inputs used by the examples below *)


(** A hit carrying only an id and a score. *)
Definition hit (id : string) (s : Q) : SpeechResult :=
  mkSpeechResult id "" "" "" "" "" "" s.

(** Entities of the spec scenario: speaker "Kishida", topic "defense
    spending". *)
Definition demo_entities : KokkaiEntities :=
  mkKokkaiEntities (Some ["Kishida"]) (Some []) None (Some [])
    (Some ["defense spending"]) (Some []).

(** Entities with every field absent. *)
Definition no_entities : KokkaiEntities :=
  mkKokkaiEntities None None None None None None.

Definition demo_plan (sqs : list string) (e : KokkaiEntities)
    (strategies : list string) : QueryPlan :=
  mkQueryPlan "q" sqs e strategies (1 # 2) 2.

Definition demo_row (id : string) (s : Q) : DatabaseRow :=
  mkDatabaseRow id (Some "speaker") (Some "party") (Some "2024-05-01")
    (Some "meeting") (Some "text") (Some ("https://kokkai.ndl.go.jp/txt/" ++ id))
    (Some s).

(** A store whose embedding of a text is its length, whose structured
    filter query answers [ids], and whose similarity query answers [route]
    applied to the first embedding coordinate. *)
Definition demo_store (ids : result (list string))
    (route : Q -> result (list DatabaseRow)) : Store :=
  {| dbPool_ready := true;
     embedModel_ready := true;
     getTextEmbedding := fun s => Ok [inject_Z (Z.of_nat (String.length s))];
     query_ids := fun _ _ => ids;
     query_similar := fun q => route (hd 0 (sim_embedding q)) |}.

(** [s] contains [t] as a substring. *)
Definition contains (s t : string) : Prop := exists a b, s = a ++ t ++ b.

(** ** Lemmas on the [Map] model *)

Lemma map_set_keys (m : ResultMap) (k k' : string) (v : SpeechResult) :
  In k' (map fst (map_set m k v)) <-> k' = k \/ In k' (map fst m).
Proof.
  induction m as [|[k0 v0] rest IH]; simpl.
  - intuition congruence.
  - destruct (String.eqb_spec k k0) as [->|Hne]; simpl.
    + intuition congruence.
    + rewrite IH. intuition congruence.
Qed.

Lemma map_set_wf (m : ResultMap) (v : SpeechResult) :
  wf_map m -> wf_map (map_set m (speechId v) v).
Proof.
  intros [Hk Hnd]. split.
  - induction m as [|[k0 v0] rest IH]; simpl.
    + constructor; [reflexivity | constructor].
    + inversion Hk; subst. inversion Hnd; subst.
      destruct (String.eqb_spec (speechId v) k0) as [E|Hne].
      * constructor; [reflexivity | assumption].
      * constructor; [assumption | apply IH; assumption].
  - induction m as [|[k0 v0] rest IH]; simpl.
    + constructor; [intros [] | constructor].
    + inversion Hk; subst. inversion Hnd; subst.
      destruct (String.eqb_spec (speechId v) k0) as [E|Hne].
      * simpl. rewrite E. constructor; assumption.
      * simpl. constructor.
        -- rewrite map_set_keys. intros [E|Hin]; [congruence | contradiction].
        -- apply IH; assumption.
Qed.

Lemma map_get_set (m : ResultMap) (k k' : string) (v : SpeechResult) :
  map_get (map_set m k v) k' = if String.eqb k' k then Some v else map_get m k'.
Proof.
  induction m as [|[k0 v0] rest IH]; simpl.
  - reflexivity.
  - destruct (String.eqb_spec k k0) as [->|Hne]; simpl.
    + destruct (String.eqb k' k0); reflexivity.
    + rewrite IH. destruct (String.eqb_spec k' k0), (String.eqb_spec k' k);
        congruence.
Qed.

Lemma map_get_none (m : ResultMap) (k : string) :
  ~ In k (map fst m) -> map_get m k = None.
Proof.
  induction m as [|[k0 v0] rest IH]; simpl; intros Hn.
  - reflexivity.
  - destruct (String.eqb_spec k k0); [exfalso; auto | auto].
Qed.

Lemma hits_of_values (m : ResultMap) (id : string) :
  wf_map m ->
  hits_of id (map_values m) =
    match map_get m id with Some v => [v] | None => [] end.
Proof.
  intros [Hk Hnd]. induction m as [|[k0 v0] rest IH]; simpl.
  - reflexivity.
  - inversion Hk; subst. inversion Hnd; subst. simpl in *.
    rewrite <- H1.
    destruct (String.eqb_spec (speechId v0) id) as [E|Hne].
    + rewrite E, String.eqb_refl. rewrite IH by assumption.
      rewrite map_get_none; [reflexivity | congruence].
    + destruct (String.eqb_spec id (speechId v0)); [congruence|].
      apply IH; assumption.
Qed.

Lemma new_map_fold_wf (rs : list SpeechResult) (m : ResultMap) :
  wf_map m -> wf_map (fold_left (fun m r => map_set m (speechId r) r) rs m).
Proof.
  revert m. induction rs as [|r rest IH]; simpl; intros m Hm.
  - exact Hm.
  - apply IH, map_set_wf, Hm.
Qed.

Lemma new_map_wf (rs : list SpeechResult) : wf_map (new_map rs).
Proof.
  apply new_map_fold_wf. split; constructor.
Qed.

Lemma new_map_get_fold (rs : list SpeechResult) (m : ResultMap) (id : string) :
  map_get (fold_left (fun m r => map_set m (speechId r) r) rs m) id =
  fold_left (fun acc r => if String.eqb (speechId r) id then Some r else acc)
    rs (map_get m id).
Proof.
  revert m. induction rs as [|r rest IH]; simpl; intros m.
  - reflexivity.
  - rewrite IH, map_get_set.
    destruct (String.eqb_spec id (speechId r)), (String.eqb_spec (speechId r) id);
      congruence.
Qed.

Lemma new_map_get (rs : list SpeechResult) (id : string) :
  map_get (new_map rs) id = last_hit id rs.
Proof. apply new_map_get_fold. Qed.

Lemma new_map_values_ids (rs : list SpeechResult) :
  NoDup (map speechId (map_values (new_map rs))).
Proof.
  destruct (new_map_wf rs) as [Hk Hnd]. unfold map_values.
  rewrite map_map. erewrite map_ext_Forall; [exact Hnd|].
  eapply Forall_impl; [|exact Hk]. intros [k v]; simpl; auto.
Qed.

(** ** Lemmas on the stable sort and on [slice] *)

Lemma insert_desc_perm (x : SpeechResult) (l : list SpeechResult) :
  Permutation (insert_desc x l) (x :: l).
Proof.
  induction l as [|y rest IH]; simpl.
  - reflexivity.
  - destruct (Qle_bool (score y) (score x)).
    + reflexivity.
    + rewrite IH. apply perm_swap.
Qed.

Lemma sort_desc_perm (l : list SpeechResult) : Permutation (sort_desc l) l.
Proof.
  induction l as [|x rest IH]; simpl.
  - reflexivity.
  - rewrite insert_desc_perm. apply perm_skip, IH.
Qed.

Lemma insert_desc_hd (x y : SpeechResult) (l : list SpeechResult) :
  HdRel score_ge y l -> score_ge y x -> HdRel score_ge y (insert_desc x l).
Proof.
  intros Hh Hyx. destruct l as [|z rest]; simpl.
  - constructor; exact Hyx.
  - destruct (Qle_bool (score z) (score x)); constructor.
    + exact Hyx.
    + inversion Hh; assumption.
Qed.

Lemma insert_desc_sorted (x : SpeechResult) (l : list SpeechResult) :
  Sorted score_ge l -> Sorted score_ge (insert_desc x l).
Proof.
  induction l as [|y rest IH]; simpl; intros Hs.
  - repeat constructor.
  - apply Sorted_inv in Hs as [Hs Hh].
    destruct (Qle_bool (score y) (score x)) eqn:E.
    + constructor; [constructor; assumption|].
      constructor. unfold score_ge. apply Qle_bool_iff, E.
    + constructor; [apply IH, Hs|].
      apply insert_desc_hd; [exact Hh|].
      unfold score_ge. apply Qlt_le_weak, Qnot_le_lt.
      intros Hle. apply Qle_bool_iff in Hle. congruence.
Qed.

Lemma sort_desc_sorted (l : list SpeechResult) : Sorted score_ge (sort_desc l).
Proof.
  induction l as [|x rest IH]; simpl.
  - constructor.
  - apply insert_desc_sorted, IH.
Qed.

Lemma firstn_sorted {A} (R : A -> A -> Prop) (n : nat) (l : list A) :
  Sorted R l -> Sorted R (firstn n l).
Proof.
  revert n. induction l as [|x rest IH]; intros n Hs; destruct n; simpl;
    try constructor.
  - apply Sorted_inv in Hs as [Hs Hh]. apply IH, Hs.
  - apply Sorted_inv in Hs as [Hs Hh].
    destruct n, rest; simpl; constructor. inversion Hh; assumption.
Qed.

Lemma firstn_nodup_map {A B} (f : A -> B) (n : nat) (l : list A) :
  NoDup (map f l) -> NoDup (map f (firstn n l)).
Proof.
  revert n. induction l as [|x rest IH]; intros n Hnd; destruct n; simpl;
    try constructor.
  - inversion Hnd; subst. intros Hin. apply H1.
    rewrite in_map_iff in Hin |- *. destruct Hin as [y [Hy Hin]].
    exists y. split; [exact Hy|]. rewrite <- (firstn_skipn n rest).
    apply in_or_app. left. exact Hin.
  - inversion Hnd; subst. apply IH; assumption.
Qed.

Lemma slice0_in {A} (l : list A) (e : Z) (x : A) : In x (slice0 l e) -> In x l.
Proof.
  unfold slice0. intros Hin. rewrite <- (firstn_skipn (Z.to_nat
    (if (e <? 0)%Z then Z.max (Z.of_nat (length l) + e) 0
     else Z.min e (Z.of_nat (length l)))) l).
  apply in_or_app. left. exact Hin.
Qed.

Lemma slice0_length {A} (l : list A) (e : Z) :
  (0 <= e)%Z -> (Z.of_nat (length (slice0 l e)) <= e)%Z.
Proof.
  intros He. unfold slice0. rewrite length_firstn.
  destruct (Z.ltb_spec e 0); [lia|]. lia.
Qed.

Lemma slice0_all {A} (l : list A) (e : Z) :
  (Z.of_nat (length l) <= e)%Z -> slice0 l e = l.
Proof.
  intros He. unfold slice0. apply firstn_all2.
  destruct (Z.ltb_spec e 0); lia.
Qed.

Lemma slice0_prefix_sorted {A} (R : A -> A -> Prop) (l : list A) (e : Z) :
  Sorted R l -> Sorted R (slice0 l e).
Proof. intros Hs. apply firstn_sorted, Hs. Qed.

Lemma slice0_nodup_map {A B} (f : A -> B) (l : list A) (e : Z) :
  NoDup (map f l) -> NoDup (map f (slice0 l e)).
Proof. intros Hnd. apply firstn_nodup_map, Hnd. Qed.

Lemma aggregate_nodup (rs : list SpeechResult) (topK : Z) :
  NoDup (map speechId (aggregate rs topK)).
Proof.
  unfold aggregate. apply slice0_nodup_map.
  eapply Permutation_NoDup; [|apply new_map_values_ids].
  apply Permutation_map. symmetry. apply sort_desc_perm.
Qed.

Lemma aggregate_sorted (rs : list SpeechResult) (topK : Z) :
  Sorted score_ge (aggregate rs topK).
Proof.
  unfold aggregate. apply slice0_prefix_sorted, sort_desc_sorted.
Qed.

Lemma aggregate_in (rs : list SpeechResult) (topK : Z) (x : SpeechResult) :
  In x (aggregate rs topK) -> In x (map_values (new_map rs)).
Proof.
  unfold aggregate. intros Hin. apply slice0_in in Hin.
  eapply Permutation_in; [apply sort_desc_perm | exact Hin].
Qed.

Lemma last_hit_fold_some (id : string) (l : list SpeechResult) (acc : option SpeechResult) r :
  fold_left (fun acc r => if String.eqb (speechId r) id then Some r else acc) l acc = Some r ->
  acc = Some r \/ (speechId r = id /\ In r l).
Proof.
  revert acc. induction l as [|x rest IH]; simpl; intros acc H.
  - left; exact H.
  - apply IH in H as [H|[Hid Hin]].
    + destruct (String.eqb_spec (speechId x) id); [|left; exact H].
      right. inversion H; subst. split; [reflexivity | left; reflexivity].
    + right. split; [exact Hid | right; exact Hin].
Qed.

Lemma last_hit_some (id : string) (l : list SpeechResult) r :
  last_hit id l = Some r -> speechId r = id /\ In r l.
Proof.
  intros H. apply last_hit_fold_some in H as [H|H]; [discriminate | exact H].
Qed.

Lemma last_hit_fold_none (id : string) (l : list SpeechResult) acc :
  fold_left (fun acc r => if String.eqb (speechId r) id then Some r else acc) l acc <> None
  <-> acc <> None \/ In id (map speechId l).
Proof.
  revert acc. induction l as [|x rest IH]; simpl; intros acc.
  - tauto.
  - rewrite IH. destruct (String.eqb_spec (speechId x) id).
    + split; [intros _; right; left; assumption | intros _; left; discriminate].
    + intuition congruence.
Qed.

Lemma map_get_in (m : ResultMap) (k : string) :
  In k (map fst m) <-> map_get m k <> None.
Proof.
  induction m as [|[k0 v0] rest IH]; simpl.
  - tauto.
  - destruct (String.eqb_spec k k0).
    + split; [intros _; discriminate | intros _; left; congruence].
    + rewrite IH. intuition congruence.
Qed.

Lemma values_ids (m : ResultMap) :
  wf_map m -> map speechId (map_values m) = map fst m.
Proof.
  intros [Hk _]. unfold map_values. rewrite map_map.
  apply map_ext_Forall. eapply Forall_impl; [|exact Hk]. intros [k v]; simpl; auto.
Qed.

Lemma new_map_ids (rs : list SpeechResult) (id : string) :
  In id (map speechId (map_values (new_map rs))) <-> In id (map speechId rs).
Proof.
  rewrite values_ids by apply new_map_wf. rewrite map_get_in, new_map_get.
  unfold last_hit. rewrite last_hit_fold_none. intuition congruence.
Qed.

Lemma map_set_fresh (m : ResultMap) (k : string) (v : SpeechResult) :
  ~ In k (map fst m) -> map_set m k v = app m [(k, v)].
Proof.
  induction m as [|[k0 v0] rest IH]; simpl; intros Hn.
  - reflexivity.
  - destruct (String.eqb_spec k k0); [exfalso; auto|].
    rewrite IH; auto.
Qed.

Lemma new_map_fold_nodup (rs : list SpeechResult) (m : ResultMap) :
  NoDup (map speechId rs) ->
  (forall r, In r rs -> ~ In (speechId r) (map fst m)) ->
  fold_left (fun m r => map_set m (speechId r) r) rs m =
  app m (map (fun r => (speechId r, r)) rs).
Proof.
  revert m. induction rs as [|r rest IH]; simpl; intros m Hnd Hfresh.
  - rewrite app_nil_r. reflexivity.
  - inversion Hnd; subst.
    rewrite map_set_fresh by (apply Hfresh; left; reflexivity).
    rewrite IH; [rewrite <- app_assoc; reflexivity | assumption |].
    intros r' Hin. rewrite map_app, in_app_iff. simpl. intros [H|[H|[]]].
    + apply (Hfresh r'); [right; exact Hin | exact H].
    + apply H1. rewrite H. apply in_map, Hin.
Qed.

Lemma new_map_values_nodup (rs : list SpeechResult) :
  NoDup (map speechId rs) -> map_values (new_map rs) = rs.
Proof.
  intros Hnd. unfold new_map, map_values.
  rewrite new_map_fold_nodup; [| exact Hnd | intros r _ []].
  simpl. rewrite map_map. apply map_id.
Qed.

Lemma concat_perm {A} (l1 l2 : list (list A)) :
  Permutation l1 l2 -> Permutation (concat l1) (concat l2).
Proof.
  induction 1; simpl.
  - reflexivity.
  - apply Permutation_app_head; assumption.
  - rewrite !app_assoc. apply Permutation_app_tail, Permutation_app_comm.
  - etransitivity; eassumption.
Qed.

Lemma sorted_perm_unique (l1 l2 : list SpeechResult) :
  StronglySorted score_ge l1 -> StronglySorted score_ge l2 ->
  Permutation l1 l2 -> NoDup (map (fun r => Qred (score r)) l1) -> l1 = l2.
Proof.
  revert l2. induction l1 as [|a t1 IH]; intros l2 Hs1 Hs2 Hp Hnd.
  - symmetry. apply Permutation_nil, Hp.
  - destruct l2 as [|b t2]; [apply Permutation_sym, Permutation_nil_cons in Hp; contradiction|].
    apply StronglySorted_inv in Hs1 as [Hs1 Hf1].
    apply StronglySorted_inv in Hs2 as [Hs2 Hf2].
    inversion Hnd as [|? ? Hnin Hnd']; subst.
    assert (a = b) as <-.
    { assert (Ha : In a (b :: t2)) by (eapply Permutation_in; [exact Hp | left; reflexivity]).
      assert (Hb : In b (a :: t1)) by (eapply Permutation_in; [symmetry; exact Hp | left; reflexivity]).
      destruct Ha as [Ha|Ha]; [symmetry; exact Ha|].
      destruct Hb as [Hb|Hb]; [exact Hb|].
      exfalso. apply Hnin.
      rewrite Forall_forall in Hf1, Hf2.
      specialize (Hf1 b Hb). specialize (Hf2 a Ha). unfold score_ge in *.
      rewrite (Qred_complete (score a) (score b)) by (apply Qle_antisym; assumption).
      apply in_map_iff. exists b. split; [reflexivity | exact Hb]. }
    f_equal. apply IH; try assumption.
    eapply Permutation_cons_inv; exact Hp.
Qed.

Lemma nodup_le_one (id : string) (l : list SpeechResult) :
  NoDup (map speechId l) -> (length (hits_of id l) <= 1)%nat.
Proof.
  unfold hits_of. induction l as [|x rest IH]; simpl; intros Hnd.
  - lia.
  - inversion Hnd; subst.
    destruct (String.eqb_spec (speechId x) id) as [E|Hne]; simpl.
    + assert (filter (fun r => String.eqb (speechId r) id) rest = []) as ->.
      { destruct (filter (fun r => String.eqb (speechId r) id) rest) as [|y ys] eqn:F;
          [reflexivity|].
        exfalso. assert (Hy : In y (y :: ys)) by (left; reflexivity).
        rewrite <- F, filter_In in Hy. destruct Hy as [Hy Hid].
        apply String.eqb_eq in Hid. apply H1. rewrite E, <- Hid. apply in_map, Hy. }
      simpl. lia.
    + apply IH; assumption.
Qed.

(** ** C2: duplicate speech ids *)

(** C2 (counterexample): sub-query results [S1 @ 0.9] then [S1 @ 0.75]
    aggregate to the single entry [S1 @ 0.75], not to the highest score. *)
Lemma C2_highest_score_counterexample :
  hits_of "S1" (aggregate (concat [[hit "S1" (9 # 10)]; [hit "S1" (75 # 100)]]) 5)
    = [hit "S1" (75 # 100)]
  /\ ~ (75 # 100 == 9 # 10)%Q.
Proof.
  split; [reflexivity | unfold Qeq; simpl; discriminate].
Qed.

(** C2 (amended): for the concatenated per-sub-query results, the output
    holds at most one entry for a speech id; that entry is the LAST hit with
    that id in arrival order (JavaScript [Map] last-write-wins), and it is
    present whenever [topK] is at least the number of distinct ids. *)
Theorem C2_aggregate_keeps_last_seen (lss : list (list SpeechResult)) (topK : Z)
    (id : string) (r : SpeechResult) :
  last_hit id (concat lss) = Some r ->
  (forall x, In x (aggregate (concat lss) topK) -> speechId x = id -> x = r) /\
  (length (hits_of id (aggregate (concat lss) topK)) <= 1)%nat /\
  ((Z.of_nat (length (map_values (new_map (concat lss)))) <= topK)%Z ->
   hits_of id (aggregate (concat lss) topK) = [r]).
Proof.
  intros Hlast.
  assert (Hvals : hits_of id (map_values (new_map (concat lss))) = [r]).
  { rewrite hits_of_values by apply new_map_wf. rewrite new_map_get, Hlast.
    reflexivity. }
  assert (Hone : forall x, In x (aggregate (concat lss) topK) -> speechId x = id -> x = r).
  { intros x Hin Hid. apply aggregate_in in Hin.
    assert (Hx : In x (hits_of id (map_values (new_map (concat lss))))).
    { unfold hits_of. apply filter_In. split; [exact Hin|].
      apply String.eqb_eq, Hid. }
    rewrite Hvals in Hx. destruct Hx as [Hx|[]]. symmetry; exact Hx. }
  assert (Hle : (length (hits_of id (aggregate (concat lss) topK)) <= 1)%nat)
    by apply nodup_le_one, aggregate_nodup.
  split; [exact Hone|]. split; [exact Hle|].
  intros HtopK.
  assert (Hr : In r (hits_of id (aggregate (concat lss) topK))).
  { unfold hits_of. apply filter_In.
    apply last_hit_some in Hlast as [Hid _]. split; [|apply String.eqb_eq, Hid].
    unfold aggregate. rewrite slice0_all.
    - eapply Permutation_in; [symmetry; apply sort_desc_perm|].
      assert (Hv : In r (hits_of id (map_values (new_map (concat lss)))))
        by (rewrite Hvals; left; reflexivity).
      unfold hits_of in Hv. apply filter_In in Hv. apply Hv.
    - rewrite (Permutation_length (sort_desc_perm _)). exact HtopK. }
  destruct (hits_of id (aggregate (concat lss) topK)) as [|y [|z zs]] eqn:E.
  - destruct Hr.
  - destruct Hr as [Hr|[]]. subst. reflexivity.
  - simpl in Hle. lia.
Qed.

(** Witness for [C2_aggregate_keeps_last_seen]: the two sub-queries of the
    spec scenario. *)
Lemma C2_aggregate_keeps_last_seen_witness :
  last_hit "S1" (concat [[hit "S1" (9 # 10)]; [hit "S1" (75 # 100)]])
    = Some (hit "S1" (75 # 100)) /\
  hits_of "S1" (aggregate (concat [[hit "S1" (9 # 10)]; [hit "S1" (75 # 100)]]) 5)
    = [hit "S1" (75 # 100)].
Proof.
  assert (H : last_hit "S1" (concat [[hit "S1" (9 # 10)]; [hit "S1" (75 # 100)]])
              = Some (hit "S1" (75 # 100))) by reflexivity.
  split; [exact H|].
  apply (C2_aggregate_keeps_last_seen _ 5 _ _ H).
  vm_compute. discriminate.
Defined.

(** ** C3: shape of the aggregated output *)

Lemma select_query_limit (st : Store) (plan : QueryPlan) (emb : list Q) (topK : Z)
    (q : SimilarityQuery) :
  select_query st plan emb topK = Ok q -> sim_limit q = topK.
Proof.
  unfold select_query. destruct (includes _ _).
  - destruct (applyStructuredFilter st (entities plan)) as [ids|e]; cbn [bind];
      [|discriminate].
    destruct (Nat.ltb _ _); intros H; injection H as <-; reflexivity.
  - intros H; injection H as <-; reflexivity.
Qed.

Lemma run_subqueries_negative (st : Store) (plan : QueryPlan) (topK : Z)
    (sq : string) (rest : list string) (acc : list SpeechResult) :
  rejects_negative_limit st -> (topK < 0)%Z ->
  exists e, run_subqueries st plan topK (sq :: rest) acc = Err e.
Proof.
  intros Hrej Hneg. cbn [run_subqueries]. unfold subquery_step.
  destruct (getTextEmbedding st _) as [emb|e]; cbn [bind]; [|eauto].
  destruct (select_query st plan emb topK) as [q|e] eqn:Eq; cbn [bind]; [|eauto].
  apply select_query_limit in Eq.
  destruct (Hrej q) as [e He]; [rewrite Eq; exact Hneg|].
  rewrite He. cbn [bind]. eauto.
Qed.

(** C3 (counterexample): a plan without sub-queries reaches the
    aggregation with no result; with [topK = -1] the output is empty, and
    its length 0 exceeds [topK]. No store query is made. *)
Lemma C3_negative_topK_counterexample :
  searchWithPlan (demo_store (Ok []) (fun _ => Ok [])) (demo_plan [] no_entities ["vector"])
    (-1) = Ok (aggregate (concat []) (-1)) /\
  aggregate (concat []) (-1) = [] /\
  ~ (Z.of_nat (length (aggregate (concat []) (-1))) <= -1)%Z.
Proof.
  split; [reflexivity|]. split; [reflexivity|].
  vm_compute. intros H. apply H. reflexivity.
Qed.

(** C3 (amended): the aggregated output has no two entries with the same
    speech id, is sorted by score in descending order, and, for every
    non-negative [topK], has at most [topK] entries. With a negative
    [topK], against a store that rejects a negative [LIMIT],
    [searchWithPlan] succeeds only for a plan without sub-queries, and
    then returns the empty list. *)
Theorem C3_aggregate_shape (lss : list (list SpeechResult)) (topK : Z) :
  NoDup (map speechId (aggregate (concat lss) topK)) /\
  Sorted score_ge (aggregate (concat lss) topK) /\
  ((0 <= topK)%Z -> (Z.of_nat (length (aggregate (concat lss) topK)) <= topK)%Z) /\
  (forall st plan out, rejects_negative_limit st -> (topK < 0)%Z ->
     searchWithPlan st plan topK = Ok out -> out = [] /\ subqueries plan = []).
Proof.
  split; [apply aggregate_nodup|]. split; [apply aggregate_sorted|].
  split; [intros H; unfold aggregate; apply slice0_length, H|].
  intros st plan out Hrej Hneg H. unfold searchWithPlan in H.
  destruct (negb _); [discriminate|].
  destruct (subqueries plan) as [|sq rest] eqn:Es.
  - cbn [run_subqueries bind] in H. injection H as <-.
    split; [|reflexivity].
    unfold aggregate, slice0. simpl. apply firstn_nil.
  - destruct (run_subqueries_negative st plan topK sq rest [] Hrej Hneg) as [e He].
    rewrite He in H. discriminate.
Qed.

(** Witness for [C3_aggregate_shape] at [topK = 1]. *)
Lemma C3_aggregate_shape_witness :
  (Z.of_nat (length (aggregate (concat [[hit "S1" (9 # 10)]; [hit "S2" (8 # 10)]]) 1))
     <= 1)%Z.
Proof.
  apply (proj1 (proj2 (proj2 (C3_aggregate_shape
    [[hit "S1" (9 # 10)]; [hit "S2" (8 # 10)]] 1)))).
  lia.
Defined.

(** ** C6: dependence on arrival order *)

Lemma precedes_nil {A} (a b : A) : ~ precedes [] a b.
Proof. intros [l1 [l2 [l3 H]]]. destruct l1; discriminate. Qed.

Lemma precedes_cons {A} (y : A) (l : list A) (a b : A) :
  precedes l a b -> precedes (y :: l) a b.
Proof. intros [l1 [l2 [l3 ->]]]. exists (y :: l1), l2, l3. reflexivity. Qed.

Lemma precedes_head {A} (a b : A) (l : list A) : In b l -> precedes (a :: l) a b.
Proof.
  intros Hin. destruct (in_split _ _ Hin) as [p [q ->]].
  exists [], p, q. reflexivity.
Qed.

Lemma precedes_inv {A} (y : A) (l : list A) (a b : A) :
  precedes (y :: l) a b -> (a = y /\ In b l) \/ precedes l a b.
Proof.
  intros [[|z l1] [l2 [l3 H]]]; simpl in H; injection H as -> H.
  - left. split; [reflexivity|]. rewrite H. apply in_or_app. right. left. reflexivity.
  - right. exists l1, l2, l3. exact H.
Qed.

Lemma insert_desc_before (x b : SpeechResult) (l : list SpeechResult) :
  In b l -> (score b <= score x)%Q -> precedes (insert_desc x l) x b.
Proof.
  induction l as [|y rest IH]; [intros []|]. intros Hin Hle. simpl.
  destruct (Qle_bool (score y) (score x)) eqn:E.
  - apply precedes_head. exact Hin.
  - destruct Hin as [<-|Hin].
    + apply Qle_bool_iff in Hle. congruence.
    + apply precedes_cons, IH; assumption.
Qed.

Lemma insert_desc_keep (x a b : SpeechResult) (l : list SpeechResult) :
  precedes l a b -> precedes (insert_desc x l) a b.
Proof.
  induction l as [|y rest IH]; intros H; [destruct (precedes_nil _ _ H)|]. simpl.
  destruct (Qle_bool (score y) (score x)).
  - apply precedes_cons. exact H.
  - apply precedes_inv in H as [[-> Hin]|H].
    + apply precedes_head.
      apply (Permutation_in _ (Permutation_sym (insert_desc_perm x rest))).
      right. exact Hin.
    + apply precedes_cons, IH, H.
Qed.

(** The sort is stable: an entry no higher than an earlier one stays after
    it. *)
Lemma sort_desc_stable (l : list SpeechResult) (a b : SpeechResult) :
  precedes l a b -> (score b <= score a)%Q -> precedes (sort_desc l) a b.
Proof.
  induction l as [|x rest IH]; intros H Hle; [destruct (precedes_nil _ _ H)|]. simpl.
  apply precedes_inv in H as [[-> Hin]|H].
  - apply insert_desc_before; [|exact Hle].
    apply (Permutation_in _ (Permutation_sym (sort_desc_perm rest))). exact Hin.
  - apply insert_desc_keep, IH; assumption.
Qed.

Lemma map_set_fst (m : ResultMap) (k : string) (v : SpeechResult) :
  map fst (map_set m k v) =
  if existsb (String.eqb k) (map fst m) then map fst m else app (map fst m) [k].
Proof.
  induction m as [|[k' v'] rest IH]; simpl; [reflexivity|].
  destruct (String.eqb_spec k k') as [->|Hne]; simpl; [reflexivity|].
  rewrite IH. destruct (existsb _ _); reflexivity.
Qed.

Lemma new_map_fold_keys (rs : list SpeechResult) (m : ResultMap) (seen : list string) :
  (forall x, existsb (String.eqb x) seen = existsb (String.eqb x) (map fst m)) ->
  map fst (fold_left (fun m r => map_set m (speechId r) r) rs m) =
  app (map fst m) (first_occ seen (map speechId rs)).
Proof.
  revert m seen. induction rs as [|r rest IH]; intros m seen Hs; simpl.
  - rewrite app_nil_r. reflexivity.
  - rewrite (Hs (speechId r)).
    destruct (existsb (String.eqb (speechId r)) (map fst m)) eqn:E.
    + rewrite (IH _ seen).
      * rewrite map_set_fst, E. reflexivity.
      * intros x. rewrite map_set_fst, E. apply Hs.
    + rewrite (IH _ (speechId r :: seen)).
      * rewrite map_set_fst, E, <- app_assoc. reflexivity.
      * intros x. rewrite map_set_fst, E, existsb_app. simpl.
        rewrite Hs, orb_false_r, orb_comm. reflexivity.
Qed.

(** The [Map] lists the speech ids in the order of their first
    occurrence. *)
Lemma new_map_first_occ (rs : list SpeechResult) :
  map speechId (map_values (new_map rs)) = first_occ [] (map speechId rs).
Proof.
  rewrite values_ids by apply new_map_wf. unfold new_map.
  apply (new_map_fold_keys rs [] []). reflexivity.
Qed.

Lemma map_get_value (m : ResultMap) (r : SpeechResult) :
  wf_map m -> In r (map_values m) -> map_get m (speechId r) = Some r.
Proof.
  intros Hwf Hin. pose proof (hits_of_values m (speechId r) Hwf) as H.
  assert (Hr : In r (hits_of (speechId r) (map_values m))).
  { unfold hits_of. apply filter_In. split; [exact Hin | apply String.eqb_refl]. }
  rewrite H in Hr.
  destruct (map_get m (speechId r)); [destruct Hr as [->|[]]; reflexivity | destruct Hr].
Qed.

(** C6 (counterexample): swapping the two sub-query result sequences
    changes the output, with a speech id hit twice (the C2 scenario), and
    with two distinct hits of equal score. *)
Lemma C6_order_dependence_counterexample :
  aggregate (concat [[hit "S1" (9 # 10)]; [hit "S1" (75 # 100)]]) 5 <>
  aggregate (concat [[hit "S1" (75 # 100)]; [hit "S1" (9 # 10)]]) 5 /\
  aggregate (concat [[hit "S1" (1 # 2)]; [hit "S2" (1 # 2)]]) 5 <>
  aggregate (concat [[hit "S2" (1 # 2)]; [hit "S1" (1 # 2)]]) 5.
Proof.
  split; vm_compute; intros H; discriminate H.
Qed.

(** C6 (amended): for a reordering [lss2] of the sequences [lss1]:
    the set of distinct speech ids before truncation is the same, and so is
    the output when no speech id occurs twice and no two hits have equal
    scores. In general the deduplicated list holds, for each speech id, its
    last-arriving entry, in the order in which the ids first occur; the
    output is a prefix of that list sorted by descending score, where
    entries of equal score keep their relative order. *)
Theorem C6_aggregate_order (lss1 lss2 : list (list SpeechResult)) (topK : Z) :
  Permutation lss1 lss2 ->
  (forall id, In id (map speechId (map_values (new_map (concat lss1)))) <->
              In id (map speechId (map_values (new_map (concat lss2))))) /\
  (NoDup (map speechId (concat lss1)) ->
   NoDup (map (fun r => Qred (score r)) (concat lss1)) ->
   aggregate (concat lss1) topK = aggregate (concat lss2) topK) /\
  (forall r, In r (map_values (new_map (concat lss1))) ->
     last_hit (speechId r) (concat lss1) = Some r) /\
  map speechId (map_values (new_map (concat lss1))) =
    first_occ [] (map speechId (concat lss1)) /\
  (forall r1 r2, precedes (map_values (new_map (concat lss1))) r1 r2 ->
     (score r1 == score r2)%Q ->
     precedes (sort_desc (map_values (new_map (concat lss1)))) r1 r2) /\
  (exists k, aggregate (concat lss1) topK =
             firstn k (sort_desc (map_values (new_map (concat lss1))))).
Proof.
  intros Hp. pose proof (concat_perm _ _ Hp) as Hc.
  split; [|split; [|split; [|split; [|split]]]].
  - intros id. rewrite !new_map_ids.
    split; apply Permutation_in, Permutation_map; [exact Hc | symmetry; exact Hc].
  - intros Hid Hsc. unfold aggregate.
    assert (Hid2 : NoDup (map speechId (concat lss2)))
      by (eapply Permutation_NoDup; [apply Permutation_map, Hc | exact Hid]).
    rewrite !new_map_values_nodup by assumption.
    f_equal. apply sorted_perm_unique.
    + apply Sorted_StronglySorted; [intros a b c Hab Hbc; unfold score_ge in *;
        eapply Qle_trans; eassumption | apply sort_desc_sorted].
    + apply Sorted_StronglySorted; [intros a b c Hab Hbc; unfold score_ge in *;
        eapply Qle_trans; eassumption | apply sort_desc_sorted].
    + rewrite !sort_desc_perm. exact Hc.
    + eapply Permutation_NoDup; [|exact Hsc].
      apply Permutation_map. symmetry. apply sort_desc_perm.
  - intros r Hin. rewrite <- new_map_get.
    apply map_get_value; [apply new_map_wf | exact Hin].
  - apply new_map_first_occ.
  - intros r1 r2 Hpre Heq. apply sort_desc_stable; [exact Hpre|].
    apply Qle_lteq. right. symmetry. exact Heq.
  - eexists. reflexivity.
Qed.

(** Witness for [C6_aggregate_order]: two distinct hits in either order. *)
Lemma C6_aggregate_order_witness :
  aggregate (concat [[hit "S1" (9 # 10)]; [hit "S2" (75 # 100)]]) 5 =
  aggregate (concat [[hit "S2" (75 # 100)]; [hit "S1" (9 # 10)]]) 5.
Proof.
  apply (proj1 (proj2 (C6_aggregate_order [[hit "S1" (9 # 10)]; [hit "S2" (75 # 100)]]
                  [[hit "S2" (75 # 100)]; [hit "S1" (9 # 10)]] 5 (perm_swap _ _ _)))).
  - vm_compute. repeat constructor; simpl; intuition discriminate.
  - vm_compute. repeat constructor; simpl; intuition discriminate.
Defined.

(** ** C1: choice of the similarity query *)

(** C1: once the expanded sub-query is embedded, the similarity query is
    fixed by the strategies and the candidate ids of the structured filter:
    structured with candidates -> restricted to them, ceiling 0.8;
    structured with no candidate -> unrestricted, ceiling 0.6; not
    structured -> unrestricted, ceiling 0.7. *)
Theorem C1_threshold_selection (st : Store) (plan : QueryPlan) (topK : Z)
    (sq : string) (emb : list Q) :
  getTextEmbedding st (expandQuery sq (entities plan)) = Ok emb ->
  (includes (enabledStrategies plan) "structured" = true ->
   forall candidateIds, applyStructuredFilter st (entities plan) = Ok candidateIds ->
   candidateIds <> [] ->
   subquery_step st plan topK sq =
     fmap (map row_to_result)
       (query_similar st (mkSimilarityQuery emb (Some candidateIds) (8 # 10) topK))) /\
  (includes (enabledStrategies plan) "structured" = true ->
   applyStructuredFilter st (entities plan) = Ok [] ->
   subquery_step st plan topK sq =
     fmap (map row_to_result)
       (query_similar st (mkSimilarityQuery emb None (6 # 10) topK))) /\
  (includes (enabledStrategies plan) "structured" = false ->
   subquery_step st plan topK sq =
     fmap (map row_to_result)
       (query_similar st (mkSimilarityQuery emb None (7 # 10) topK))).
Proof.
  intros Hemb. unfold subquery_step, select_query. rewrite Hemb. simpl.
  split; [|split].
  - intros Hs ids Hf Hne. rewrite Hs, Hf. simpl.
    destruct ids as [|i is]; [contradiction|]. simpl.
    destruct (query_similar _ _); reflexivity.
  - intros Hs Hf. rewrite Hs, Hf. simpl.
    destruct (query_similar _ _); reflexivity.
  - intros Hs. rewrite Hs. simpl.
    destruct (query_similar _ _); reflexivity.
Qed.

(** Witness for [C1_threshold_selection]: the spec scenario, where the
    filter finds no speaker "Kishida" and the search falls back to an
    unrestricted query with ceiling 0.6. *)
Lemma C1_threshold_selection_witness :
  subquery_step (demo_store (Ok []) (fun _ => Ok [demo_row "S9" (1 # 2)]))
    (demo_plan ["Kishida defense spending"] demo_entities ["vector"; "structured"])
    5 "Kishida defense spending" =
  fmap (map row_to_result)
    (query_similar (demo_store (Ok []) (fun _ => Ok [demo_row "S9" (1 # 2)]))
       (mkSimilarityQuery
          [inject_Z (Z.of_nat (String.length "Kishida defense spending defense spending"))]
          None (6 # 10) 5)).
Proof.
  apply (proj1 (proj2 (C1_threshold_selection
    (demo_store (Ok []) (fun _ => Ok [demo_row "S9" (1 # 2)]))
    (demo_plan ["Kishida defense spending"] demo_entities ["vector"; "structured"])
    5 "Kishida defense spending"
    [inject_Z (Z.of_nat (String.length "Kishida defense spending defense spending"))]
    eq_refl))); reflexivity.
Defined.

(** ** C5: a failing sub-query search *)

(** Route of the C5 store: the sub-query of length 1 times out, every other
    one returns hit [S2]. *)
Lemma C5_partial_failure_counterexample :
  let st := demo_store (Ok [])
              (fun q => if Qeq_bool q 1 then Err "statement timeout"
                        else Ok [demo_row "S2" (8 # 10)]) in
  let plan := demo_plan ["a"; "bb"] no_entities ["vector"] in
  searchWithPlan st plan 5 = Err "statement timeout" /\
  subquery_step st plan 5 "bb" = Ok [row_to_result (demo_row "S2" (8 # 10))].
Proof.
  split; reflexivity.
Qed.

Lemma run_subqueries_first_error (st : Store) (plan : QueryPlan) (topK : Z)
    (pre post : list string) (sq e : string) (acc : list SpeechResult) :
  (forall p, In p pre -> exists rs, subquery_step st plan topK p = Ok rs) ->
  subquery_step st plan topK sq = Err e ->
  run_subqueries st plan topK (app pre (sq :: post)) acc = Err e.
Proof.
  revert acc. induction pre as [|p rest IH]; simpl; intros acc Hpre Hsq.
  - rewrite Hsq. reflexivity.
  - destruct (Hpre p (or_introl eq_refl)) as [rs Hp]. rewrite Hp. simpl.
    apply IH; [intros p' Hin; apply Hpre; right; exact Hin | exact Hsq].
Qed.

(** C5 (amended): when the sub-queries before [sq] succeed and the search
    of [sq] fails with [e], [searchWithPlan] fails with the same [e]: the
    remaining sub-queries contribute nothing and no merged result is
    returned. *)
Theorem C5_subquery_failure_aborts (st : Store) (plan : QueryPlan) (topK : Z)
    (pre post : list string) (sq e : string) :
  dbPool_ready st = true -> embedModel_ready st = true ->
  subqueries plan = app pre (sq :: post) ->
  (forall p, In p pre -> exists rs, subquery_step st plan topK p = Ok rs) ->
  subquery_step st plan topK sq = Err e ->
  searchWithPlan st plan topK = Err e.
Proof.
  intros Hdb Hemb Hsq Hpre Hfail. unfold searchWithPlan.
  rewrite Hdb, Hemb. simpl. rewrite Hsq.
  rewrite (run_subqueries_first_error _ _ _ _ _ _ _ _ Hpre Hfail). reflexivity.
Qed.

(** Witness for [C5_subquery_failure_aborts]: the first of two sub-queries
    times out. *)
Lemma C5_subquery_failure_aborts_witness :
  searchWithPlan
    (demo_store (Ok []) (fun q => if Qeq_bool q 1 then Err "statement timeout"
                                  else Ok [demo_row "S2" (8 # 10)]))
    (demo_plan ["a"; "bb"] no_entities ["vector"]) 5 = Err "statement timeout".
Proof.
  apply (C5_subquery_failure_aborts _ _ 5 [] ["bb"] "a" "statement timeout");
    try reflexivity.
  intros p [].
Defined.

(** ** C8: a failing structured filter query *)

(** C8: with the pool initialised, a failing structured filter query yields
    the empty candidate list; a structured plan then runs the unrestricted
    fallback query with ceiling 0.6. *)
Theorem C8_filter_failure_degrades (st : Store) (e : KokkaiEntities) (msg : string) :
  dbPool_ready st = true ->
  query_ids st (filter_sql (fst (filter_conditions e))) (snd (filter_conditions e)) = Err msg ->
  applyStructuredFilter st e = Ok [] /\
  (forall plan emb topK, entities plan = e ->
   includes (enabledStrategies plan) "structured" = true ->
   select_query st plan emb topK = Ok (mkSimilarityQuery emb None (6 # 10) topK)).
Proof.
  intros Hdb Hq.
  assert (Hf : applyStructuredFilter st e = Ok []).
  { unfold applyStructuredFilter. rewrite Hdb. simpl.
    destruct (filter_conditions e) as [conds params]. simpl in Hq.
    destruct conds as [|c cs]; [reflexivity|]. rewrite Hq. reflexivity. }
  split; [exact Hf|].
  intros plan emb topK He Hs. unfold select_query. rewrite Hs, He, Hf. reflexivity.
Qed.

(** Witness for [C8_filter_failure_degrades]: the filter query for
    speaker "Kishida" fails. *)
Lemma C8_filter_failure_degrades_witness :
  applyStructuredFilter (demo_store (Err "connection reset") (fun _ => Ok []))
    demo_entities = Ok [].
Proof.
  apply (proj1 (C8_filter_failure_degrades
                  (demo_store (Err "connection reset") (fun _ => Ok []))
                  demo_entities "connection reset" eq_refl eq_refl)).
Defined.

(** ** C10: which entity fields matter *)

(** C10: the structured filter (its conditions, parameters and result)
    depends only on [speakers], [parties] and [dateRange]; a sub-query's
    search depends on the other entity fields only through the expanded
    text, which appends the space-joined non-empty [topics]. *)
Theorem C10_filter_fields (e1 e2 : KokkaiEntities) :
  speakers e1 = speakers e2 -> parties e1 = parties e2 ->
  dateRange e1 = dateRange e2 ->
  filter_conditions e1 = filter_conditions e2 /\
  (forall st, applyStructuredFilter st e1 = applyStructuredFilter st e2) /\
  (forall st plan1 plan2 topK sq,
     entities plan1 = e1 -> entities plan2 = e2 ->
     enabledStrategies plan1 = enabledStrategies plan2 ->
     expandQuery sq e1 = expandQuery sq e2 ->
     subquery_step st plan1 topK sq = subquery_step st plan2 topK sq) /\
  (forall sq ts, topics e1 = Some ts -> ts <> [] ->
     expandQuery sq e1 = sq ++ " " ++ join " " ts).
Proof.
  intros Hsp Hpa Hdr.
  assert (Hc : filter_conditions e1 = filter_conditions e2)
    by (unfold filter_conditions; rewrite Hsp, Hpa, Hdr; reflexivity).
  assert (Hf : forall st, applyStructuredFilter st e1 = applyStructuredFilter st e2)
    by (intros st; unfold applyStructuredFilter; rewrite Hc; reflexivity).
  split; [exact Hc|]. split; [exact Hf|]. split.
  - intros st plan1 plan2 topK sq H1 H2 Hst Hx.
    unfold subquery_step, select_query. rewrite H1, H2, Hst, Hx, Hf. reflexivity.
  - intros sq ts Ht Hne. unfold expandQuery. rewrite Ht.
    destruct ts; [contradiction | reflexivity].
Qed.

(** Witness for [C10_filter_fields]: adding meetings and positions to the
    scenario entities leaves the filter unchanged. *)
Lemma C10_filter_fields_witness :
  filter_conditions demo_entities =
  filter_conditions
    (mkKokkaiEntities (Some ["Kishida"]) (Some []) None (Some ["予算委員会"])
       (Some ["防衛費"]) (Some ["内閣総理大臣"])).
Proof.
  apply (proj1 (C10_filter_fields demo_entities
    (mkKokkaiEntities (Some ["Kishida"]) (Some []) None (Some ["予算委員会"])
       (Some ["防衛費"]) (Some ["内閣総理大臣"])) eq_refl eq_refl eq_refl)).
Defined.

(** ** C4 and C9: defaults of the query plan *)

Lemma plan_from_json_fields (question : string) (planData : json) (p : PlanValue) :
  plan_from_json question planData = Ok p ->
  pv_subqueries p = js_or (field planData "subqueries") (JV (JArr [JStr question])) /\
  pv_confidence p = js_or (field planData "confidence") (JV (JNum (1 # 2))) /\
  pv_estimatedComplexity p = js_or (field planData "estimatedComplexity") (JV (JNum 2)).
Proof.
  intros H. destruct planData; simpl in H; try discriminate H;
    injection H as <-; simpl; repeat split.
Qed.

(** C4 (counterexample): the planner response [{"subqueries": []}] gives
    a plan with an empty sub-query list. *)
Lemma C4_empty_subqueries_counterexample :
  exists p, plan_from_json "q" (JObj [("subqueries", JArr [])]) = Ok p /\
            pv_subqueries p = JV (JArr []).
Proof.
  eexists. split; [reflexivity | reflexivity].
Qed.

(** C4 (amended): the plan's [subqueries] is the response's [subqueries]
    value whenever that value is truthy, kept as is (any array, including
    the empty one or one of more than three strings); it is the singleton
    [[question]] exactly when the value is absent or falsy. *)
Theorem C4_subqueries_default (question : string) (planData : json) (p : PlanValue) :
  plan_from_json question planData = Ok p ->
  (truthy (field planData "subqueries") = true /\
   pv_subqueries p = field planData "subqueries") \/
  (truthy (field planData "subqueries") = false /\
   pv_subqueries p = JV (JArr [JStr question])).
Proof.
  intros H. apply plan_from_json_fields in H as [Hs _].
  rewrite Hs. unfold js_or.
  destruct (truthy (field planData "subqueries")); [left | right]; split; reflexivity.
Qed.

(** Witness for [C4_subqueries_default]: a response without [subqueries]. *)
Lemma C4_subqueries_default_witness :
  exists p, plan_from_json "q" (JObj [("confidence", JNum (8 # 10))]) = Ok p /\
    ((truthy (field (JObj [("confidence", JNum (8 # 10))]) "subqueries") = true /\
      pv_subqueries p = field (JObj [("confidence", JNum (8 # 10))]) "subqueries") \/
     (truthy (field (JObj [("confidence", JNum (8 # 10))]) "subqueries") = false /\
      pv_subqueries p = JV (JArr [JStr "q"]))).
Proof.
  eexists. split; [reflexivity|].
  apply (C4_subqueries_default "q" (JObj [("confidence", JNum (8 # 10))])).
  reflexivity.
Defined.

(** C9 (counterexample): [planKokkaiQuery] replaces a parsed confidence 0,
    which lies in [0,1], by 0.5, and keeps a complexity 7 and a
    confidence 7, outside [1,5] and [0,1]. *)
Lemma C9_defaults_counterexample :
  (exists p,
     planKokkaiQuery (fun s => s)
       (fun _ => Ok (JObj [("confidence", JNum 0); ("estimatedComplexity", JNum 7)]))
       (Some (mkLlm (fun _ => Ok "{}"))) "q" = Ok p /\
     pv_confidence p = JV (JNum (1 # 2)) /\
     pv_estimatedComplexity p = JV (JNum 7)) /\
  (exists p,
     planKokkaiQuery (fun s => s) (fun _ => Ok (JObj [("confidence", JNum 7)]))
       (Some (mkLlm (fun _ => Ok "{}"))) "q" = Ok p /\
     pv_confidence p = JV (JNum 7)).
Proof.
  split; eexists; split; [reflexivity | split; reflexivity | reflexivity | reflexivity].
Qed.

(** ** C7: the fallback answer *)

Lemma str_app_nil_r (s : string) : s ++ "" = s.
Proof. induction s as [|c s IH]; simpl; [reflexivity | rewrite IH; reflexivity]. Qed.

Lemma str_app_assoc (a b c : string) : (a ++ b) ++ c = a ++ b ++ c.
Proof. induction a as [|x a IH]; simpl; [reflexivity | rewrite IH; reflexivity]. Qed.

Lemma contains_refl (s : string) : contains s s.
Proof. exists "", "". simpl. rewrite str_app_nil_r. reflexivity. Qed.

Lemma contains_app_l (a b t : string) : contains a t -> contains (a ++ b) t.
Proof.
  intros [x [y ->]]. exists x, (y ++ b).
  rewrite !str_app_assoc. reflexivity.
Qed.

Lemma contains_app_r (a b t : string) : contains b t -> contains (a ++ b) t.
Proof.
  intros [x [y ->]]. exists (a ++ x), y.
  rewrite !str_app_assoc. reflexivity.
Qed.

Lemma contains_join (sep : string) (xs : list string) (x t : string) :
  In x xs -> contains x t -> contains (join sep xs) t.
Proof.
  induction xs as [|y rest IH]; simpl; [intros []|].
  intros [->|Hin] Hc; destruct rest as [|z zs].
  - exact Hc.
  - apply contains_app_l, Hc.
  - destruct Hin.
  - apply contains_app_r, contains_app_r, IH; assumption.
Qed.

Lemma mapi_from_in {A B} (f : nat -> A -> B) (n : nat) (l : list A) (x : A) :
  In x l -> exists i, In (f i x) (mapi_from f n l).
Proof.
  revert n. induction l as [|y rest IH]; simpl; intros n Hin; [destruct Hin|].
  destruct Hin as [->|Hin].
  - exists n. left. reflexivity.
  - destruct (IH (S n) Hin) as [i Hi]. exists i. right. exact Hi.
Qed.

Ltac solve_contains :=
  first
    [ apply contains_refl
    | apply contains_app_l; solve_contains
    | apply contains_app_r; solve_contains ].

Lemma fallback_entry_fields (toFixed3 : Q -> string) (i : nat) (r : SpeechResult) :
  let s := fallback_entry toFixed3 i r in
  contains s (speaker r) /\ contains s (party r) /\ contains s (date r) /\
  contains s (meeting r) /\ contains s (js_substring0 300 (content r)) /\
  contains s (url r) /\ contains s (toFixed3 (score r)).
Proof.
  unfold fallback_entry. repeat split; solve_contains.
Qed.

(** C7: when the completion request fails, [generateAnswer] returns the
    deterministic fallback text built from the results: it is non-empty,
    contains every result's speaker, party, date, meeting, first 300
    UTF-16 code units of content, url and formatted score, and in particular some
    result's url. *)
Theorem C7_answer_fallback (toFixed3 : Q -> string) (l : Llm) (query : string)
    (results : list SpeechResult) (msg : string) :
  complete l (answer_prompt toFixed3 query results) = Err msg ->
  results <> [] ->
  exists answer,
    generateAnswer toFixed3 (Some l) query results = Ok answer /\
    answer = fallback_answer toFixed3 results /\
    answer <> "" /\
    (forall r, In r results ->
       contains answer (speaker r) /\ contains answer (party r) /\
       contains answer (date r) /\ contains answer (meeting r) /\
       contains answer (js_substring0 300 (content r)) /\
       contains answer (url r) /\ contains answer (toFixed3 (score r))) /\
    (exists r, In r results /\ contains answer (url r)).
Proof.
  intros Hfail Hne.
  assert (Hall : forall r t, In r results ->
    (forall i, contains (fallback_entry toFixed3 i r) t) ->
    contains (fallback_answer toFixed3 results) t).
  { intros r t Hin Hc. destruct (mapi_from_in (fallback_entry toFixed3) 0 _ _ Hin)
      as [i Hi].
    unfold fallback_answer. apply contains_app_r, contains_app_r, contains_app_r.
    eapply contains_join; [exact Hi | apply Hc]. }
  exists (fallback_answer toFixed3 results).
  split; [unfold generateAnswer; rewrite Hfail; reflexivity|].
  split; [reflexivity|].
  split; [unfold fallback_answer; simpl; discriminate|].
  split.
  - intros r Hin.
    repeat split; apply (Hall r); try exact Hin;
      intros i; apply (fallback_entry_fields toFixed3 i r).
  - destruct results as [|r rest]; [contradiction|].
    exists r. split; [left; reflexivity|].
    apply (Hall r); [left; reflexivity|].
    intros i. apply (fallback_entry_fields toFixed3 i r).
Qed.

(** Witness for [C7_answer_fallback]: the completion service times out on
    a single result. *)
Lemma C7_answer_fallback_witness :
  exists answer,
    generateAnswer (fun _ => "0.900") (Some (mkLlm (fun _ => Err "timeout"))) "q"
      [row_to_result (demo_row "S1" (9 # 10))] = Ok answer /\
    contains answer "https://kokkai.ndl.go.jp/txt/S1".
Proof.
  destruct (C7_answer_fallback (fun _ => "0.900") (mkLlm (fun _ => Err "timeout")) "q"
              [row_to_result (demo_row "S1" (9 # 10))] "timeout" eq_refl
              ltac:(discriminate)) as [answer [Hgen [_ [_ [Hall _]]]]].
  exists answer. split; [exact Hgen|].
  apply (Hall _ (or_introl eq_refl)).
Defined.

(** * Further properties of the code *)

Open Scope nat_scope.

(** ** The structured filter's SQL conditions and parameters *)

Lemma like_conditions_cons (column x : string) (rest params : list string) :
  like_conditions column (x :: rest) params =
  let '(conds, ps) := like_conditions column rest (app params [like_pattern x]) in
  (like_condition column (length params + 1) :: conds, ps).
Proof. reflexivity. Qed.

Lemma like_conditions_closed (column : string) (xs params : list string) :
  snd (like_conditions column xs params) = app params (map like_pattern xs) /\
  forall k, nth_error (fst (like_conditions column xs params)) k =
    option_map (fun _ => like_condition column (length params + k + 1)) (nth_error xs k).
Proof.
  revert params. induction xs as [|x rest IH]; intros params.
  - simpl. split; [rewrite app_nil_r; reflexivity | intros [|k]; reflexivity].
  - rewrite like_conditions_cons.
    destruct (IH (app params [like_pattern x])) as [Hs Hk].
    destruct (like_conditions column rest (app params [like_pattern x]))
      as [conds ps] eqn:E. cbn [fst snd] in *.
    split.
    + rewrite Hs, <- app_assoc. reflexivity.
    + intros [|k].
      * simpl. rewrite Nat.add_0_r. reflexivity.
      * simpl. rewrite Hk, length_app. simpl.
        destruct (nth_error rest k); simpl; [|reflexivity].
        do 2 f_equal. lia.
Qed.

Lemma push_like_shape (column : string) (xs : option (list string))
    (cs ps : list string) :
  snd (push_like column xs (cs, ps)) = app ps (map like_pattern (opt_list xs)) /\
  length (fst (push_like column xs (cs, ps))) = length cs + nonempty (opt_list xs).
Proof.
  unfold push_like. destruct xs as [[|x rest]|]; cbv beta iota.
  - rewrite app_nil_r, Nat.add_0_r. split; reflexivity.
  - destruct (like_conditions_closed column (x :: rest) ps) as [Hs _].
    destruct (like_conditions column (x :: rest) ps) as [conds ps'] eqn:E.
    simpl in *. rewrite length_app. split; [exact Hs | reflexivity].
  - rewrite app_nil_r, Nat.add_0_r. split; reflexivity.
Qed.

Lemma push_date_shape (r : option DateRange) (cs ps : list string) :
  snd (push_date r (cs, ps)) = app ps (date_params r) /\
  length (fst (push_date r (cs, ps))) = length cs + nonempty (date_params r).
Proof.
  destruct r as [d|]; simpl.
  - rewrite length_app. split; reflexivity.
  - rewrite app_nil_r, Nat.add_0_r. split; reflexivity.
Qed.

Lemma filter_conditions_shape (e : KokkaiEntities) :
  snd (filter_conditions e) =
    app (map like_pattern (opt_list (speakers e)))
      (app (map like_pattern (opt_list (parties e))) (date_params (dateRange e))) /\
  length (fst (filter_conditions e)) =
    nonempty (opt_list (speakers e)) + nonempty (opt_list (parties e)) +
    nonempty (date_params (dateRange e)).
Proof.
  unfold filter_conditions.
  destruct (push_like_shape "e.speaker" (speakers e) [] []) as [Hs1 Hl1].
  destruct (push_like "e.speaker" (speakers e) ([], [])) as [c1 p1]. simpl in Hs1, Hl1.
  destruct (push_like_shape "e.speaker_group" (parties e) c1 p1) as [Hs2 Hl2].
  destruct (push_like "e.speaker_group" (parties e) (c1, p1)) as [c2 p2].
  simpl in Hs2, Hl2.
  destruct (push_date_shape (dateRange e) c2 p2) as [Hs3 Hl3].
  rewrite Hs3, Hl3, Hs2, Hl2, Hs1, Hl1, <- app_assoc. split; reflexivity.
Qed.

(** X1: the [k]-th ILIKE condition built for an entity list uses the
    placeholder [$(n+k+1)], where [n] parameters existed before, and the
    parameter at that position is [%x%] for the [k]-th entity [x]. *)
Theorem X1_like_placeholders (column : string) (xs params : list string)
    (k : nat) (x : string) :
  nth_error xs k = Some x ->
  nth_error (fst (like_conditions column xs params)) k =
    Some (like_condition column (length params + k + 1)) /\
  nth_error (snd (like_conditions column xs params)) (length params + k) =
    Some (like_pattern x).
Proof.
  intros Hx. destruct (like_conditions_closed column xs params) as [Hs Hk].
  split.
  - rewrite Hk, Hx. reflexivity.
  - rewrite Hs, nth_error_app2 by lia.
    replace (length params + k - length params) with k by lia.
    rewrite nth_error_map, Hx. reflexivity.
Qed.

(** Witness for [X1_like_placeholders]: the second party after one speaker
    parameter is bound to [$3]. *)
Lemma X1_like_placeholders_witness :
  nth_error (fst (like_conditions "e.speaker_group" ["自民党"; "立憲民主党"] ["%岸田%"])) 1 =
    Some (like_condition "e.speaker_group" 3) /\
  nth_error (snd (like_conditions "e.speaker_group" ["自民党"; "立憲民主党"] ["%岸田%"])) 2 =
    Some (like_pattern "立憲民主党").
Proof.
  apply (X1_like_placeholders "e.speaker_group" ["自民党"; "立憲民主党"] ["%岸田%"] 1
           "立憲民主党").
  reflexivity.
Defined.

(** X2: the filter's parameters are the [%speaker%] patterns, then the
    [%party%] patterns, then the start and end dates; there is one
    condition per non-empty speaker list, non-empty party list and date
    range. *)
Theorem X2_filter_parameters (e : KokkaiEntities) :
  snd (filter_conditions e) =
    app (map like_pattern (opt_list (speakers e)))
      (app (map like_pattern (opt_list (parties e))) (date_params (dateRange e))) /\
  length (fst (filter_conditions e)) =
    nonempty (opt_list (speakers e)) + nonempty (opt_list (parties e)) +
    nonempty (date_params (dateRange e)).
Proof. apply filter_conditions_shape. Qed.

(** X3: with no speaker, no party (absent or empty lists) and no date
    range, [applyStructuredFilter] returns the empty list without querying
    the store, whatever the store would answer. *)
Theorem X3_filter_no_criteria (st : Store) (e : KokkaiEntities) :
  dbPool_ready st = true ->
  opt_list (speakers e) = [] -> opt_list (parties e) = [] -> dateRange e = None ->
  applyStructuredFilter st e = Ok [].
Proof.
  intros Hdb Hs Hp Hd. destruct (filter_conditions_shape e) as [_ Hl].
  rewrite Hs, Hp, Hd in Hl. simpl in Hl.
  unfold applyStructuredFilter. rewrite Hdb. simpl.
  destruct (filter_conditions e) as [[|c cs] ps]; [reflexivity | discriminate].
Qed.

(** Witness for [X3_filter_no_criteria]: empty speaker and party lists
    with a store whose id query would fail. *)
Lemma X3_filter_no_criteria_witness :
  applyStructuredFilter (demo_store (Err "connection reset") (fun _ => Ok []))
    (mkKokkaiEntities (Some []) (Some []) None (Some ["予算委員会"]) None None) = Ok [].
Proof.
  apply X3_filter_no_criteria; reflexivity.
Defined.

(** ** Mapping store rows to results *)

Lemma or_str_nonempty (x : option string) (d : string) :
  d <> "" -> or_str x d <> "".
Proof.
  intros Hd. destruct x as [s|]; simpl; [|exact Hd].
  destruct (String.eqb_spec s ""); assumption.
Qed.

(** X4: every mapped row keeps its speech id, and its speaker, party, date
    and meeting are never empty: null or empty columns get the placeholders
    ["未知の議員"], ["?"], ["2024-01-01"] and ["?"]. *)
Theorem X4_row_placeholders (row : DatabaseRow) :
  speechId (row_to_result row) = speech_id row /\
  speaker (row_to_result row) <> "" /\ party (row_to_result row) <> "" /\
  date (row_to_result row) <> "" /\ meeting (row_to_result row) <> "".
Proof.
  unfold row_to_result; simpl.
  repeat split; apply or_str_nonempty; discriminate.
Qed.

(** ** Composition of [searchWithPlan] *)

Lemma run_subqueries_ext (st : Store) (p1 p2 : QueryPlan) (topK : Z)
    (sqs : list string) (acc : list SpeechResult) :
  (forall sq, In sq sqs -> subquery_step st p1 topK sq = subquery_step st p2 topK sq) ->
  run_subqueries st p1 topK sqs acc = run_subqueries st p2 topK sqs acc.
Proof.
  revert acc. induction sqs as [|sq rest IH]; simpl; intros acc Heq.
  - reflexivity.
  - rewrite (Heq sq (or_introl eq_refl)).
    destruct (subquery_step st p2 topK sq) as [rs|e]; simpl; [|reflexivity].
    apply IH. intros sq' Hin. apply Heq. right. exact Hin.
Qed.

(** X5: the strategy list matters only through whether it contains
    ["structured"]: two plans with the same sub-queries and entities give
    the same search outcome when they agree on that, so ["vector"] and
    ["statistical"] have no effect. *)
Theorem X5_strategies_structured_only (st : Store) (p1 p2 : QueryPlan) (topK : Z) :
  subqueries p1 = subqueries p2 -> entities p1 = entities p2 ->
  includes (enabledStrategies p1) "structured" =
    includes (enabledStrategies p2) "structured" ->
  searchWithPlan st p1 topK = searchWithPlan st p2 topK.
Proof.
  intros Hsq He Hs. unfold searchWithPlan. rewrite Hsq.
  rewrite (run_subqueries_ext st p1 p2 topK (subqueries p2) []); [reflexivity|].
  intros sq _. unfold subquery_step, select_query. rewrite He, Hs. reflexivity.
Qed.

(** Witness for [X5_strategies_structured_only]: ["statistical"] alone
    searches like ["vector"]. *)
Lemma X5_strategies_structured_only_witness :
  searchWithPlan (demo_store (Ok []) (fun _ => Ok [demo_row "S1" (9 # 10)]))
    (demo_plan ["a"] no_entities ["statistical"]) 5 =
  searchWithPlan (demo_store (Ok []) (fun _ => Ok [demo_row "S1" (9 # 10)]))
    (demo_plan ["a"] no_entities ["vector"]) 5.
Proof.
  apply X5_strategies_structured_only; reflexivity.
Defined.

Lemma run_subqueries_all (st : Store) (plan : QueryPlan) (topK : Z)
    (sqs : list string) (rss : list (list SpeechResult)) (acc : list SpeechResult) :
  Forall2 (fun sq rs => subquery_step st plan topK sq = Ok rs) sqs rss ->
  run_subqueries st plan topK sqs acc = Ok (app acc (concat rss)).
Proof.
  intros H. revert acc. induction H as [|sq rs sqs' rss' Hstep Hrest IH]; simpl; intros acc.
  - rewrite app_nil_r. reflexivity.
  - rewrite Hstep. simpl. rewrite IH, app_assoc. reflexivity.
Qed.

(** X6: when every sub-query's search succeeds, [searchWithPlan] returns
    the aggregation of their results concatenated in sub-query order; with
    no sub-query at all it returns the empty list. *)
Theorem X6_search_composition (st : Store) (plan : QueryPlan) (topK : Z)
    (rss : list (list SpeechResult)) :
  dbPool_ready st = true -> embedModel_ready st = true ->
  Forall2 (fun sq rs => subquery_step st plan topK sq = Ok rs) (subqueries plan) rss ->
  searchWithPlan st plan topK = Ok (aggregate (concat rss) topK).
Proof.
  intros Hdb Hemb Hall. unfold searchWithPlan. rewrite Hdb, Hemb. simpl.
  rewrite (run_subqueries_all _ _ _ _ _ [] Hall). reflexivity.
Qed.

(** Witness for [X6_search_composition]: two sub-queries hitting the same
    speech. *)
Lemma X6_search_composition_witness :
  searchWithPlan
    (demo_store (Ok []) (fun q => if Qeq_bool q 1 then Ok [demo_row "S1" (9 # 10)]
                                  else Ok [demo_row "S1" (7 # 10); demo_row "S2" (8 # 10)]))
    (demo_plan ["a"; "bb"] no_entities ["vector"]) 5 =
  Ok (aggregate (concat [[row_to_result (demo_row "S1" (9 # 10))];
                         [row_to_result (demo_row "S1" (7 # 10));
                          row_to_result (demo_row "S2" (8 # 10))]]) 5).
Proof.
  apply X6_search_composition; try reflexivity.
  repeat constructor.
Defined.

Lemma map_set_values_in (m : ResultMap) (k : string) (v v' : SpeechResult) :
  In v (map snd (map_set m k v')) -> v = v' \/ In v (map snd m).
Proof.
  induction m as [|[k0 v0] rest IH]; simpl.
  - intros [H|[]]. left. symmetry. exact H.
  - destruct (String.eqb k k0); simpl.
    + intros [H|H]; [left; symmetry; exact H | right; right; exact H].
    + intros [H|H]; [right; left; exact H|].
      apply IH in H as [H|H]; [left; exact H | right; right; exact H].
Qed.

Lemma new_map_values_in_fold (l : list SpeechResult) (m : ResultMap) (v : SpeechResult) :
  In v (map snd (fold_left (fun m r => map_set m (speechId r) r) l m)) ->
  In v (map snd m) \/ In v l.
Proof.
  revert m. induction l as [|r rest IH]; simpl; intros m H.
  - left. exact H.
  - apply IH in H as [H|H]; [|right; right; exact H].
    apply map_set_values_in in H as [H|H]; [right; left; symmetry; exact H | left; exact H].
Qed.

Lemma new_map_values_in (l : list SpeechResult) (v : SpeechResult) :
  In v (map_values (new_map l)) -> In v l.
Proof.
  intros H. apply new_map_values_in_fold in H as [[]|H]. exact H.
Qed.

Lemma run_subqueries_in (st : Store) (plan : QueryPlan) (topK : Z)
    (sqs : list string) (acc all : list SpeechResult) (x : SpeechResult) :
  run_subqueries st plan topK sqs acc = Ok all -> In x all ->
  In x acc \/ exists sq rs, In sq sqs /\ subquery_step st plan topK sq = Ok rs /\ In x rs.
Proof.
  revert acc. induction sqs as [|sq rest IH]; simpl; intros acc Hrun Hin.
  - injection Hrun as <-. left. exact Hin.
  - destruct (subquery_step st plan topK sq) as [rs|e] eqn:E; simpl in Hrun;
      [|discriminate].
    destruct (IH _ Hrun Hin) as [H|[sq' [rs' [H1 [H2 H3]]]]].
    + apply in_app_or in H as [H|H]; [left; exact H|].
      right. exists sq, rs. split; [left; reflexivity | split; assumption].
    + right. exists sq', rs'. split; [right; exact H1 | split; assumption].
Qed.

(** X7: every result returned by [searchWithPlan] is one of the results of
    some sub-query's search; nothing is invented or altered by the merge. *)
Theorem X7_search_provenance (st : Store) (plan : QueryPlan) (topK : Z)
    (out : list SpeechResult) (x : SpeechResult) :
  searchWithPlan st plan topK = Ok out -> In x out ->
  exists sq rs, In sq (subqueries plan) /\
    subquery_step st plan topK sq = Ok rs /\ In x rs.
Proof.
  unfold searchWithPlan. intros H Hin.
  destruct (negb (dbPool_ready st && embedModel_ready st)); [discriminate|].
  destruct (run_subqueries st plan topK (subqueries plan) []) as [all|e] eqn:E;
    simpl in H; [|discriminate].
  injection H as <-. apply aggregate_in, new_map_values_in in Hin.
  destruct (run_subqueries_in _ _ _ _ _ _ x E Hin) as [[]|H]. exact H.
Qed.

(** Witness for [X7_search_provenance]: the single hit of a one-sub-query
    search. *)
Lemma X7_search_provenance_witness :
  exists sq rs, In sq ["a"] /\
    subquery_step (demo_store (Ok []) (fun _ => Ok [demo_row "S1" (9 # 10)]))
      (demo_plan ["a"] no_entities ["vector"]) 5 sq = Ok rs /\
    In (row_to_result (demo_row "S1" (9 # 10))) rs.
Proof.
  apply (X7_search_provenance (demo_store (Ok []) (fun _ => Ok [demo_row "S1" (9 # 10)]))
           (demo_plan ["a"] no_entities ["vector"]) 5
           [row_to_result (demo_row "S1" (9 # 10))]); [reflexivity | left; reflexivity].
Defined.

Lemma sort_desc_sorted_id (l : list SpeechResult) :
  Sorted score_ge l -> sort_desc l = l.
Proof.
  induction l as [|x rest IH]; simpl; intros Hs; [reflexivity|].
  apply Sorted_inv in Hs as [Hs Hh]. rewrite IH by exact Hs.
  destruct rest as [|y ys]; [reflexivity|]. simpl.
  inversion Hh as [|? ? Hxy]; subst. unfold score_ge in Hxy.
  apply Qle_bool_iff in Hxy. rewrite Hxy. reflexivity.
Qed.

(** X8: aggregating an aggregated output again, with a [topK] no smaller
    than its length, returns it unchanged. *)
Theorem X8_aggregate_idempotent (rs : list SpeechResult) (topK topK' : Z) :
  (Z.of_nat (length (aggregate rs topK)) <= topK')%Z ->
  aggregate (aggregate rs topK) topK' = aggregate rs topK.
Proof.
  intros H. unfold aggregate at 1.
  rewrite new_map_values_nodup by apply aggregate_nodup.
  rewrite sort_desc_sorted_id by apply aggregate_sorted.
  apply slice0_all, H.
Qed.

(** Witness for [X8_aggregate_idempotent]. *)
Lemma X8_aggregate_idempotent_witness :
  aggregate (aggregate [hit "S1" (7 # 10); hit "S2" (9 # 10); hit "S1" (8 # 10)] 5) 2 =
  aggregate [hit "S1" (7 # 10); hit "S2" (9 # 10); hit "S1" (8 # 10)] 5.
Proof.
  apply X8_aggregate_idempotent. vm_compute. discriminate.
Defined.

(** ** The planners *)

Lemma get_nonnull (d : json) (k : string) :
  d <> JNull -> get (JV d) k = Ok (field d k).
Proof. destruct d; simpl; congruence. Qed.

(** X9: normalising a parsed planner response fails (with a [TypeError])
    exactly when the response is the JSON value [null]. *)
Theorem X9_plan_from_json_null (question : string) (d : json) :
  (exists p, plan_from_json question d = Ok p) <-> d <> JNull.
Proof.
  split.
  - intros [p H] ->. discriminate H.
  - intros Hd. unfold plan_from_json. rewrite !get_nonnull by exact Hd.
    eexists. reflexivity.
Qed.

(** X10: when the planner's answer parses to a JSON value that is neither
    an object nor [null] (a number, string, boolean or array),
    [planKokkaiQuery] returns the plan with every default: the question as
    the only sub-query, empty entity lists, strategy ["vector"], confidence
    0.5 and complexity 2. *)
Theorem X10_non_object_defaults (trim : string -> string)
    (json_parse : string -> result json) (l : Llm) (question text : string) (d : json) :
  complete l (planner_prompt question) = Ok text ->
  json_parse (trim text) = Ok d ->
  d <> JNull -> (forall fs, d <> JObj fs) ->
  planKokkaiQuery trim json_parse (Some l) question = Ok (default_plan question).
Proof.
  intros Hc Hp Hn Ho. unfold planKokkaiQuery. rewrite Hc. simpl.
  unfold plan_of_text, parse_plan_text. rewrite Hp. simpl.
  destruct d; try contradiction; try (exfalso; eapply Ho; reflexivity);
    reflexivity.
Qed.

(** Witness for [X10_non_object_defaults]: the model answers [42]. *)
Lemma X10_non_object_defaults_witness :
  planKokkaiQuery (fun s => s) (fun _ => Ok (JNum 42))
    (Some (mkLlm (fun _ => Ok "42"))) "q" = Ok (default_plan "q").
Proof.
  apply (X10_non_object_defaults (fun s => s) (fun _ => Ok (JNum 42))
           (mkLlm (fun _ => Ok "42")) "q" "42" (JNum 42)); try reflexivity.
  - discriminate.
  - intros fs; discriminate.
Defined.

Lemma plan_log_check_types (p : PlanValue) :
  plan_log_check p = Ok tt ->
  (exists xs, pv_enabledStrategies p = JV (JArr xs)) /\
  (exists c, pv_confidence p = JV (JNum c)).
Proof.
  unfold plan_log_check, bind.
  destruct (js_length _); [|discriminate].
  do 3 (destruct (to_template _); [|discriminate]).
  destruct (pv_enabledStrategies p) as [|[]]; try discriminate.
  destruct (to_template _); [|discriminate].
  destruct (pv_confidence p) as [|[]]; try discriminate.
  intros _. eauto.
Qed.

Lemma plan_of_text_types (json_parse : string -> result json)
    (question text : string) (p : PlanValue) :
  plan_of_text json_parse question text = Ok p ->
  pv_originalQuestion p = question /\
  (exists xs, pv_enabledStrategies p = JV (JArr xs)) /\
  (exists c, pv_confidence p = JV (JNum c)).
Proof.
  unfold plan_of_text. intros H.
  destruct (parse_plan_text json_parse text) as [d|e]; simpl in H; [|discriminate].
  destruct (plan_from_json question d) as [p'|e] eqn:E; simpl in H; [|discriminate].
  destruct (plan_log_check p') as [[]|e] eqn:Hl; simpl in H; [|discriminate].
  injection H as <-.
  split; [|exact (plan_log_check_types _ Hl)].
  destruct d; simpl in E; try discriminate E; injection E as <-; reflexivity.
Qed.

(** X11: a plan returned by either planner ([planKokkaiQuery] or
    [createQueryPlan]) carries the question verbatim, an array of
    strategies and a numeric confidence: other values make the logging
    after normalisation throw. *)
Theorem X11_planned_types (trim : string -> string) (json_parse : string -> result json)
    (sys : string) (mkPrompt : string -> string) (llm : option Llm)
    (client : result ChatClient) (question : string) (p : PlanValue) :
  planKokkaiQuery trim json_parse llm question = Ok p \/
  createQueryPlan trim json_parse sys mkPrompt client question = Ok p ->
  pv_originalQuestion p = question /\
  (exists xs, pv_enabledStrategies p = JV (JArr xs)) /\
  (exists c, pv_confidence p = JV (JNum c)).
Proof.
  intros [H|H].
  - unfold planKokkaiQuery in H. destruct llm as [l|]; [|discriminate].
    destruct (complete l (planner_prompt question)) as [t|e]; simpl in H;
      [|discriminate].
    eapply plan_of_text_types; exact H.
  - unfold createQueryPlan in H. destruct client as [c|e]; simpl in H; [|discriminate].
    destruct (chat_create c _) as [choices|e]; simpl in H; [|discriminate].
    destruct choices as [|[t|] rest]; simpl in H; try discriminate.
    destruct (String.eqb (trim t) ""); [discriminate|].
    eapply plan_of_text_types; exact H.
Qed.

(** Witness for [X11_planned_types]: the scenario plan of the prompt. *)
Lemma X11_planned_types_witness :
  exists p,
    planKokkaiQuery (fun s => s)
      (fun _ => Ok (JObj [("enabledStrategies", JArr [JStr "vector"; JStr "structured"]);
                          ("confidence", JNum (8 # 10))]))
      (Some (mkLlm (fun _ => Ok "{}"))) "q" = Ok p /\
    pv_originalQuestion p = "q" /\
    (exists xs, pv_enabledStrategies p = JV (JArr xs)) /\
    (exists c, pv_confidence p = JV (JNum c)).
Proof.
  eexists. split; [reflexivity|].
  eapply (X11_planned_types (fun s => s)
            (fun _ => Ok (JObj [("enabledStrategies", JArr [JStr "vector"; JStr "structured"]);
                                ("confidence", JNum (8 # 10))]))
            "" (fun s => s) (Some (mkLlm (fun _ => Ok "{}"))) (Err "") "q").
  left. reflexivity.
Defined.

Lemma plain_or (v : jsval) (ys : list json) :
  plain_list v -> Forall (fun y => exists t, y = JStr t) ys ->
  exists xs, js_or v (JV (JArr ys)) = JV (JArr xs) /\
             Forall (fun x => exists t, x = JStr t) xs.
Proof.
  intros [Hf|[xs [-> F]]] Fy.
  - exists ys. unfold js_or. rewrite Hf. auto.
  - exists xs. auto.
Qed.

Lemma strings_no_throw (xs : list json) :
  Forall (fun x => exists t, x = JStr t) xs -> to_string_throws (JArr xs) = false.
Proof.
  induction 1 as [|x rest [t ->] _ IH]; [reflexivity|]. exact IH.
Qed.

Lemma array_length_template (xs : list json) :
  to_template (js_or (opt_length (JV (JArr xs))) (JV (JNum 0))) = Ok tt.
Proof. unfold js_or. destruct (truthy _); reflexivity. Qed.

Lemma js_or_nonempty_string (s : string) (d : jsval) :
  s <> ""%string -> js_or (JV (JStr s)) d = JV (JStr s).
Proof.
  intros Hs. unfold js_or. simpl.
  destruct (String.eqb_spec s ""); [contradiction | reflexivity].
Qed.

(** X12: a planner answer whose [confidence] is a non-empty string makes
    [planKokkaiQuery] throw the [TypeError] of [plan.confidence.toFixed],
    when the values logged before it print: [subqueries],
    [entities.speakers], [entities.topics] and [enabledStrategies] are
    each absent, falsy or an array of strings. *)
Theorem X12_textual_confidence_throws (trim : string -> string)
    (json_parse : string -> result json) (l : Llm) (question text s : string) (d : json) :
  complete l (planner_prompt question) = Ok text ->
  json_parse (trim text) = Ok d ->
  field d "confidence" = JV (JStr s) -> s <> ""%string ->
  plain_list (field d "subqueries") ->
  plain_list (get_opt (field d "entities") "speakers") ->
  plain_list (get_opt (field d "entities") "topics") ->
  plain_list (field d "enabledStrategies") ->
  planKokkaiQuery trim json_parse (Some l) question =
    Err "TypeError: plan.confidence.toFixed is not a function".
Proof.
  intros Hc Hp Hconf Hs Hsq Hsp Htp Hst.
  assert (Hd : d <> JNull) by (intros ->; discriminate Hconf).
  unfold planKokkaiQuery. rewrite Hc. cbn [bind].
  unfold plan_of_text, parse_plan_text. rewrite Hp. cbn [bind].
  unfold plan_from_json. rewrite !get_nonnull by exact Hd. cbn [bind].
  destruct (plain_or _ [JStr question] Hsq) as [xs1 [E1 _]]; [eauto|].
  destruct (plain_or _ [] Hsp) as [xs2 [E2 _]]; [constructor|].
  destruct (plain_or _ [] Htp) as [xs3 [E3 _]]; [constructor|].
  destruct (plain_or _ [JStr "vector"] Hst) as [xs4 [E4 F4]]; [eauto|].
  rewrite E1, E2, E3, E4, Hconf, (js_or_nonempty_string s _ Hs).
  unfold plan_log_check. cbn [pv_subqueries pv_entities ev_speakers ev_topics
    pv_enabledStrategies pv_confidence js_length bind].
  rewrite !array_length_template. cbn [bind].
  unfold to_template at 2. rewrite (strings_no_throw _ F4). reflexivity.
Qed.

(** Witness for [X12_textual_confidence_throws]: [{"confidence": "high"}]. *)
Lemma X12_textual_confidence_throws_witness :
  planKokkaiQuery (fun s => s) (fun _ => Ok (JObj [("confidence", JStr "high")]))
    (Some (mkLlm (fun _ => Ok "{}"))) "q" =
    Err "TypeError: plan.confidence.toFixed is not a function".
Proof.
  apply (X12_textual_confidence_throws (fun s => s)
           (fun _ => Ok (JObj [("confidence", JStr "high")]))
           (mkLlm (fun _ => Ok "{}")) "q" "{}" "high"
           (JObj [("confidence", JStr "high")])); try reflexivity;
    try (left; reflexivity).
  discriminate.
Defined.

(** X13: [createQueryPlan] rejects a completion without text (no choice,
    a [null] content, or content that trims to the empty string) with
    ["No text in completion response"], whatever the JSON parser. *)
Theorem X13_no_text_rejected (trim : string -> string) (json_parse : string -> result json)
    (sys : string) (mkPrompt : string -> string) (c : ChatClient) (question : string)
    (choices : list (option string)) :
  chat_create c [("system", sys); ("user", mkPrompt question)] = Ok choices ->
  choices = [] \/ (exists rest, choices = None :: rest) \/
  (exists t rest, choices = Some t :: rest /\ trim t = ""%string) ->
  createQueryPlan trim json_parse sys mkPrompt (Ok c) question =
    Err "No text in completion response".
Proof.
  intros Hc Hch. unfold createQueryPlan. simpl. rewrite Hc. simpl.
  destruct Hch as [->|[[rest ->]|[t [rest [-> Ht]]]]]; simpl; try reflexivity.
  rewrite Ht. reflexivity.
Qed.

(** Witness for [X13_no_text_rejected]: the content is blank. *)
Lemma X13_no_text_rejected_witness :
  createQueryPlan (fun _ => ""%string) (fun _ => Ok (JNum 1)) "sys" (fun s => s)
    (Ok (mkChatClient (fun _ => Ok [Some "   "%string]))) "q" =
    Err "No text in completion response".
Proof.
  apply (X13_no_text_rejected (fun _ => ""%string) (fun _ => Ok (JNum 1)) "sys"
           (fun s => s) (mkChatClient (fun _ => Ok [Some "   "%string])) "q"
           [Some "   "%string]); [reflexivity|].
  right. right. exists "   "%string, []. split; reflexivity.
Defined.

(** ** The answer prompt *)

Ltac solve_contains_with H :=
  first
    [ exact H
    | apply contains_refl
    | apply contains_app_l; solve_contains_with H
    | apply contains_app_r; solve_contains_with H ].

Lemma answer_prompt_context (toFixed3 : Q -> string) (query : string)
    (results : list SpeechResult) (t : string) :
  contains (join nl (mapi_from (context_entry toFixed3) 0 results)) t ->
  contains (answer_prompt toFixed3 query results) t.
Proof.
  intros H. unfold answer_prompt. cbv zeta. solve_contains_with H.
Qed.

(** X15: the prompt of [generateAnswer] quotes the question and, for every
    search result, its speaker, party, date, meeting, full content, URL and
    formatted score. *)
Theorem X15_answer_prompt_evidence (toFixed3 : Q -> string) (query : string)
    (results : list SpeechResult) :
  let p := answer_prompt toFixed3 query results in
  contains p query /\
  forall r, In r results ->
    contains p (speaker r) /\ contains p (party r) /\ contains p (date r) /\
    contains p (meeting r) /\ contains p (content r) /\ contains p (url r) /\
    contains p (toFixed3 (score r)).
Proof.
  intros p. split.
  - unfold p, answer_prompt. cbv zeta. solve_contains.
  - intros r Hr. destruct (mapi_from_in (context_entry toFixed3) 0 results r Hr) as [i Hi].
    unfold p.
    repeat split; apply answer_prompt_context; eapply contains_join; try exact Hi;
      unfold context_entry; solve_contains.
Qed.

(** Witness for [X15_answer_prompt_evidence]: the prompt for one result
    quotes its URL. *)
Lemma X15_answer_prompt_evidence_witness :
  contains (answer_prompt (fun _ => "0.900"%string) "q" [mkSpeechResult "s1" "Kishida" "LDP" "2024-01-01" "Budget" "text" "https://kokkai.ndl.go.jp/txt/s1" (9 # 10)])
    (url (mkSpeechResult "s1" "Kishida" "LDP" "2024-01-01" "Budget" "text" "https://kokkai.ndl.go.jp/txt/s1" (9 # 10))).
Proof.
  apply (proj2 (X15_answer_prompt_evidence (fun _ => "0.900"%string) "q"
                  [mkSpeechResult "s1" "Kishida" "LDP" "2024-01-01" "Budget" "text" "https://kokkai.ndl.go.jp/txt/s1" (9 # 10)]) (mkSpeechResult "s1" "Kishida" "LDP" "2024-01-01" "Budget" "text" "https://kokkai.ndl.go.jp/txt/s1" (9 # 10))).
  left. reflexivity.
Defined.

(** ** [String.prototype.substring] *)


